(** * Heart-particle scene: display-state controller and particle engine

    A shallow embedding of [src/index.tsx]: the [App] state and its input
    handlers, the gesture loop [predictWebcam], the look-around [Rig], and
    the [HeartParticles] component (particle creation and the per-frame
    callback).

    JavaScript numbers are idealised as real numbers: [Math.sin], [Math.cos],
    [Math.sqrt] and the arithmetic operators are the functions of [R], and a
    comparison [a < b] is [Rlt_dec a b].  Rounding, infinities and NaN are
    outside this model.

    The methods of three.js that the source calls ([Vector3.lerp],
    [Vector3.normalize], ...) are transcribed from the library; the two that
    depend on the scene graph or on the library version
    ([Object3D.worldToLocal], [Vector3.applyQuaternion]) and the parser of
    colour strings are parameters. *)

From Stdlib Require Import Reals Lra Lia List String Bool ZArith.
Import ListNotations.

Open Scope R_scope.

(** ** Comparisons of numbers as the booleans JavaScript computes *)

Definition ltb (a b : R) : bool := if Rlt_dec a b then true else false.
Definition gtb (a b : R) : bool := if Rgt_dec a b then true else false.

(** ** three.js value types *)

Module MathUtils.
(** [THREE.MathUtils.lerp(x, y, t)] *)
Definition lerp (x y t : R) : R := (1 - t) * x + t * y.
End MathUtils.

Module Vector2.
Record t := mk { x : R; y : R }.
End Vector2.

Module Vector3.
Record t := mk { x : R; y : R; z : R }.

(** [new THREE.Vector3()] *)
Definition zero : t := mk 0 0 0.

Definition add (a v : t) : t := mk (x a + x v) (y a + y v) (z a + z v).

Definition multiplyScalar (a : t) (s : R) : t := mk (x a * s) (y a * s) (z a * s).

Definition divideScalar (a : t) (s : R) : t := multiplyScalar a (1 / s).

Definition length (a : t) : R := sqrt (x a * x a + y a * y a + z a * z a).

(** [normalize()] is [this.divideScalar(this.length() || 1)]. *)
Definition normalize (a : t) : t :=
  divideScalar a (if Req_dec_T (length a) 0 then 1 else length a).

(** [this.x += (v.x - this.x) * alpha], and so for [y] and [z]. *)
Definition lerp (a v : t) (alpha : R) : t :=
  mk (x a + (x v - x a) * alpha)
     (y a + (y v - y a) * alpha)
     (z a + (z v - z a) * alpha).

Definition distanceTo (a v : t) : R :=
  let dx := x a - x v in
  let dy := y a - y v in
  let dz := z a - z v in
  sqrt (dx * dx + dy * dy + dz * dz).

(** [setFromSphericalCoords(radius, phi, theta)] *)
Definition setFromSphericalCoords (radius phi theta : R) : t :=
  let sinPhiRadius := sin phi * radius in
  mk (sinPhiRadius * sin theta) (cos phi * radius) (sinPhiRadius * cos theta).
End Vector3.

Module Color.
Record t := mk { r : R; g : R; b : R }.

Definition multiplyScalar (c : t) (s : R) : t := mk (r c * s) (g c * s) (b c * s).
End Color.

Record Quaternion := mkQuaternion { qx : R; qy : R; qz : R; qw : R }.

Record Euler := mkEuler { ex : R; ey : R; ez : R }.

(** The matrix [Object3D.updateMatrix] composes is determined by the
    position, the rotation and the scale it is composed from. *)
Record Matrix4 := compose {
  m_position : Vector3.t;
  m_rotation : Euler;
  m_scale : Vector3.t
}.

(** ** [Math.random]

    A draw is a number in [0, 1).  The generator is a stream of draws; the
    programs below thread the number of draws taken so far. *)

Record Draw := mkDraw { draw_val :> R; draw_range : 0 <= draw_val < 1 }.

Definition RandomSource := nat -> Draw.

(** ** The display-state controller ([App], [MagicalScene], [GestureController]) *)

Record Category := mkCategory { categoryName : string; score : R }.

Record NormalizedLandmark := mkLandmark { lm_x : R; lm_y : R }.

(** What [recognizeForVideo] returns, as far as [predictWebcam] reads it. *)
Record GestureRecognizerResult := mkResult {
  gestures : list (list Category);
  landmarks : option (list (list NormalizedLandmark))
}.

(** The calls [predictWebcam] makes on its props and on its own state. *)
Inductive Callback :=
  | setGestureName (name : string)
  | onGesture (isOpen : bool)
  | onHandMove (pos : Vector2.t).

(** Lines 441-451.  [None] is the [TypeError] of reading [categoryName] of
    [undefined] when the first hand carries no category. *)
Definition predictWebcam_gestures (results : GestureRecognizerResult)
  : option (list Callback) :=
  match gestures results with
  | [] => Some [setGestureName "None"]
  | hand0 :: _ =>
      match hand0 with
      | [] => None
      | top :: _ =>
          let categoryName := categoryName top in
          let score := score top in
          if gtb score 0.5 then
            Some (setGestureName categoryName ::
                  (if String.eqb categoryName "Closed_Fist" then [onGesture false]
                   else if String.eqb categoryName "Open_Palm" then [onGesture true]
                   else []))
          else Some []
      end
  end.

(** Lines 452-460. *)
Definition predictWebcam_landmarks (results : GestureRecognizerResult)
  : list Callback :=
  match landmarks results with
  | Some (hand :: _) =>
      match nth_error hand 9 with
      | Some centerPoint =>
          let x := (lm_x centerPoint - 0.5) * 2 in
          let y := (lm_y centerPoint - 0.5) * 2 in
          [onHandMove (Vector2.mk x y)]
      | None => []
      end
  | _ => []
  end.

(** The [try] block of [predictWebcam]: an exception leaves it, and the
    [catch] only logs. *)
Definition predictWebcam (results : GestureRecognizerResult) : list Callback :=
  match predictWebcam_gestures results with
  | Some calls => calls ++ predictWebcam_landmarks results
  | None => []
  end.

Record AppState := mkApp {
  isHandOpen : bool;
  cameraEnabled : bool;
  handPos : Vector2.t;
  gestureName : string
}.

(** [useState(true)], [useState(false)], [useRef({ x: 0, y: 0 })],
    [useState("None")]. *)
Definition App_init : AppState :=
  {| isHandOpen := true;
     cameraEnabled := false;
     handPos := Vector2.mk 0 0;
     gestureName := "None" |}.

Definition setHandOpen (v : bool) (s : AppState) : AppState :=
  {| isHandOpen := v;
     cameraEnabled := cameraEnabled s;
     handPos := handPos s;
     gestureName := gestureName s |}.

Definition setCameraEnabled (v : bool) (s : AppState) : AppState :=
  {| isHandOpen := isHandOpen s;
     cameraEnabled := v;
     handPos := handPos s;
     gestureName := gestureName s |}.

Definition handleHandMove (pos : Vector2.t) (s : AppState) : AppState :=
  {| isHandOpen := isHandOpen s;
     cameraEnabled := cameraEnabled s;
     handPos := pos;
     gestureName := gestureName s |}.

Definition App_setGestureName (name : string) (s : AppState) : AppState :=
  {| isHandOpen := isHandOpen s;
     cameraEnabled := cameraEnabled s;
     handPos := handPos s;
     gestureName := name |}.

(** [<GestureController onGesture={setHandOpen} onHandMove={handleHandMove}>] *)
Definition call (c : Callback) (s : AppState) : AppState :=
  match c with
  | setGestureName name => App_setGestureName name s
  | onGesture isOpen => setHandOpen isOpen s
  | onHandMove pos => handleHandMove pos s
  end.

Definition calls (cs : list Callback) (s : AppState) : AppState :=
  fold_left (fun s c => call c s) cs s.

(** The inputs that reach the controller. *)
Inductive Input :=
  | PointerDown
  | PointerUp
  | TouchModeButton
  | CameraModeButton
  | Recognized (results : GestureRecognizerResult).

(** [MagicalScene] installs the pointer handlers only when the camera is
    off; [GestureController] runs its loop only when it is on. *)
Definition handle (i : Input) (s : AppState) : AppState :=
  match i with
  | PointerDown => if negb (cameraEnabled s) then setHandOpen false s else s
  | PointerUp => if negb (cameraEnabled s) then setHandOpen true s else s
  | TouchModeButton => setCameraEnabled false s
  | CameraModeButton => setCameraEnabled true s
  | Recognized results =>
      if cameraEnabled s then calls (predictWebcam results) s else s
  end.

(** [<HeartParticles isExploded={isHandOpen} />] *)
Definition isExploded (s : AppState) : bool := isHandOpen s.

(** ** The look-around rig *)

Record RootState := mkRootState {
  clock_elapsedTime : R;
  camera_position : Vector3.t;
  camera_quaternion : Quaternion;
  pointer : Vector2.t
}.

Module Object3D.
Record t := mk {
  position : Vector3.t;
  rotation : Euler;
  scale : Vector3.t;
  matrix : Matrix4
}.

(** [updateMatrix()] *)
Definition updateMatrix (o : t) : t :=
  mk (position o) (rotation o) (scale o)
     (compose (position o) (rotation o) (scale o)).
End Object3D.

(** The [useFrame] callback of [Rig], on [group.current]. *)
Definition Rig_useFrame (cameraEnabled : bool) (handPos : Vector2.t)
    (state : RootState) (group_current : option Object3D.t) : option Object3D.t :=
  match group_current with
  | None => None
  | Some group =>
      let targetX :=
        if cameraEnabled then Vector2.x handPos * 3.0 else Vector2.x (pointer state) in
      let targetY :=
        if cameraEnabled then Vector2.y handPos * 3.0 else Vector2.y (pointer state) in
      let rotation_y :=
        MathUtils.lerp (ey (Object3D.rotation group)) (targetX / 2) 0.1 in
      let rotation_x :=
        MathUtils.lerp (ex (Object3D.rotation group)) (- targetY / 2) 0.1 in
      Some (Object3D.mk (Object3D.position group)
              (mkEuler rotation_x rotation_y (ez (Object3D.rotation group)))
              (Object3D.scale group) (Object3D.matrix group))
  end.

(** The clamp the specification recommends for a look vector. *)
Definition clamp1 (v : R) : R :=
  if Rlt_dec v (-1) then -1 else if Rgt_dec v 1 then 1 else v.

Definition clampLook (p : Vector2.t) : Vector2.t :=
  Vector2.mk (clamp1 (Vector2.x p)) (clamp1 (Vector2.y p)).

(** ** The heart particles *)

Inductive ParticleType := front | surround | scatter.

Record Particle := mkParticle {
  home : Vector3.t;
  type : ParticleType;
  offset : Vector3.t;
  fixedTarget : Vector3.t;
  color : Color.t;
  rotSpeed : R;
  scale : R;
  currentPos : Vector3.t;
  phase : R
}.

(** [d.currentPos.lerp(...)] is the only assignment the source makes to a
    field of a particle. *)
Definition set_currentPos (p : Vector3.t) (d : Particle) : Particle :=
  mkParticle (home d) (type d) (offset d) (fixedTarget d) (color d)
             (rotSpeed d) (scale d) p (phase d).

(** [COLORS.hearts] *)
Definition COLORS_hearts : list string :=
  ["#ffffff"; "#ffeaf5"; "#ff6ec7"; "#fff0a3"; "#adffff"; "#e0baff"]%string.

(** [Math.cbrt] *)
Definition Math_cbrt (v : R) : R :=
  if Req_dec_T v 0 then 0
  else if Rlt_dec 0 v then exp (ln v / 3)
  else - exp (ln (- v) / 3).

(** [Math.floor], as an index *)
Definition Math_floor (v : R) : nat := Z.to_nat (Int_part v).

(** The instance buffers of the mesh: an entry is [None] until it is
    written; [instanceColor] is allocated by the first [setColorAt]. *)
Record InstancedMesh := mkMesh {
  instanceMatrix : nat -> option Matrix4;
  instanceColor : option (nat -> option Color.t);
  instanceMatrix_needsUpdate : bool;
  instanceColor_needsUpdate : bool
}.

Definition setMatrixAt (i : nat) (m : Matrix4) (mesh : InstancedMesh) : InstancedMesh :=
  mkMesh (fun j => if Nat.eqb j i then Some m else instanceMatrix mesh j)
         (instanceColor mesh)
         (instanceMatrix_needsUpdate mesh) (instanceColor_needsUpdate mesh).

Definition setColorAt (i : nat) (c : Color.t) (mesh : InstancedMesh) : InstancedMesh :=
  let buffer :=
    match instanceColor mesh with
    | Some buffer => buffer
    | None => fun _ => None
    end in
  mkMesh (instanceMatrix mesh)
         (Some (fun j => if Nat.eqb j i then Some c else buffer j))
         (instanceMatrix_needsUpdate mesh) (instanceColor_needsUpdate mesh).

(** [instanceMatrix.needsUpdate = true;
     if (instanceColor) instanceColor.needsUpdate = true] *)
Definition markNeedsUpdate (mesh : InstancedMesh) : InstancedMesh :=
  mkMesh (instanceMatrix mesh) (instanceColor mesh) true
         (match instanceColor mesh with
          | Some _ => true
          | None => instanceColor_needsUpdate mesh
          end).

(** Everything the frame callback of [HeartParticles] mutates besides the
    particles: the number of draws taken from [Math.random], the memoised
    scratch objects and the mesh behind [meshRef]. *)
Record World := mkWorld {
  draws : nat;
  dummy : Object3D.t;
  tempColor : Color.t;
  tempVec : Vector3.t;
  camLocalPos : Vector3.t;
  tempWorldTarget : Vector3.t;
  meshRef_current : option InstancedMesh
}.

Definition set_draws (n : nat) (w : World) : World :=
  mkWorld n (dummy w) (tempColor w) (tempVec w) (camLocalPos w)
          (tempWorldTarget w) (meshRef_current w).

Definition set_dummy (o : Object3D.t) (w : World) : World :=
  mkWorld (draws w) o (tempColor w) (tempVec w) (camLocalPos w)
          (tempWorldTarget w) (meshRef_current w).

Definition set_tempColor (c : Color.t) (w : World) : World :=
  mkWorld (draws w) (dummy w) c (tempVec w) (camLocalPos w)
          (tempWorldTarget w) (meshRef_current w).

Definition set_tempVec (v : Vector3.t) (w : World) : World :=
  mkWorld (draws w) (dummy w) (tempColor w) v (camLocalPos w)
          (tempWorldTarget w) (meshRef_current w).

Definition set_camLocalPos (v : Vector3.t) (w : World) : World :=
  mkWorld (draws w) (dummy w) (tempColor w) (tempVec w) v
          (tempWorldTarget w) (meshRef_current w).

Definition set_tempWorldTarget (v : Vector3.t) (w : World) : World :=
  mkWorld (draws w) (dummy w) (tempColor w) (tempVec w) (camLocalPos w)
          v (meshRef_current w).

(** [meshRef.current!.f(...)] *)
Definition on_mesh (f : InstancedMesh -> InstancedMesh) (w : World) : World :=
  mkWorld (draws w) (dummy w) (tempColor w) (tempVec w) (camLocalPos w)
          (tempWorldTarget w) (option_map f (meshRef_current w)).

Section HeartParticles.

(** The stream [Math.random] draws from. *)
Variable random : RandomSource.

(** [v.applyQuaternion(q)] of three.js. *)
Variable applyQuaternion : Vector3.t -> Quaternion -> Vector3.t.

(** [new THREE.Color(hex)] of three.js. *)
Variable THREE_Color : string -> Color.t.

(** *** Creation (the [useMemo] of [data], lines 165-238)

    A computation that draws takes the number of draws made so far and
    returns it advanced. *)

Definition Rand (A : Type) : Type := nat -> A * nat.

Definition ret {A} (a : A) : Rand A := fun n => (a, n).

Definition bind {A B} (c : Rand A) (k : A -> Rand B) : Rand B :=
  fun n => let (a, n') := c n in k a n'.

Notation "x <- c ;; k" := (bind c (fun x => k))
  (at level 61, c at next level, right associativity).

Definition Math_random : Rand R := fun n => (draw_val (random n), S n).

(** Lines 168-187. *)
Definition createHome : Rand Vector3.t :=
  u0 <- Math_random ;;
  let isCap := gtb u0 0.3 in
  if isCap then
    u <- Math_random ;;
    v <- Math_random ;;
    let theta := 2 * PI * u in
    let phi := acos (2 * v - 1) in
    w <- Math_random ;;
    let r := 1.2 * Math_cbrt w in
    ret (Vector3.mk (r * sin phi * cos theta)
                    (2 + Rabs (r * cos phi))
                    (r * sin phi * sin theta))
  else
    a <- Math_random ;;
    let theta := a * PI * 2 in
    b <- Math_random ;;
    let r := b * 0.4 in
    c <- Math_random ;;
    let h := c * 2 in
    ret (Vector3.mk (r * cos theta) h (r * sin theta)).

(** Lines 189-218: the type with its [offset] and its [fixedTarget]. *)
Definition createTarget (rand : R)
  : Rand (ParticleType * Vector3.t * Vector3.t) :=
  if ltb rand 0.116 then
    a <- Math_random ;;
    let dist := 1.5 + a * 4.5 in
    let spread := 0.5 + (dist * 0.2) in
    b <- Math_random ;;
    let angle := b * PI * 2 in
    c <- Math_random ;;
    let radius := c * spread in
    ret (front,
         Vector3.mk (cos angle * radius) (sin angle * radius) (- dist),
         Vector3.zero)
  else if ltb rand 0.537 then
    a <- Math_random ;;
    let r := 2.0 + a * 5.0 in
    b <- Math_random ;;
    let theta := b * PI * 2 in
    c <- Math_random ;;
    let phi := acos (2 * c - 1) in
    ret (surround, Vector3.setFromSphericalCoords r phi theta, Vector3.zero)
  else
    a <- Math_random ;;
    b <- Math_random ;;
    c <- Math_random ;;
    let explodeDir :=
      Vector3.normalize (Vector3.mk (a - 0.5) (b - 0.5) (c - 0.5)) in
    e <- Math_random ;;
    let dist := 6 + e * 16 in
    ret (scatter,
         Vector3.zero,
         Vector3.add (Vector3.multiplyScalar explodeDir dist) (Vector3.mk 0 2 0)).

(** One turn of the loop of lines 167-236. *)
Definition createParticle : Rand Particle :=
  home <- createHome ;;
  rand <- Math_random ;;
  tof <- createTarget rand ;;
  let '(type, offset, fixedTarget) := tof in
  k <- Math_random ;;
  let color :=
    THREE_Color
      (nth (Math_floor (k * INR (List.length COLORS_hearts))) COLORS_hearts
           EmptyString) in
  a <- Math_random ;;
  let rotSpeed := (a - 0.5) * 2 in
  b <- Math_random ;;
  let scale := 0.04 + b * 0.14 in
  c <- Math_random ;;
  let phase := c * PI * 2 in
  ret (mkParticle home type offset fixedTarget color rotSpeed scale home phase).

Fixpoint createData (count : nat) : Rand (list Particle) :=
  match count with
  | O => ret []
  | S count' =>
      d <- createParticle ;;
      temp <- createData count' ;;
      ret (d :: temp)
  end.

Definition count : nat := 1900.

(** *** The frame callback (lines 246-293) *)

Definition World_random (w : World) : R * World :=
  let (r, n) := Math_random (draws w) in (r, set_draws n w).

(** [target.y += dy] and [target.x += dx], [target] being [tempVec]. *)
Definition tempVec_add_y (dy : R) (w : World) : World :=
  let v := tempVec w in
  set_tempVec (Vector3.mk (Vector3.x v) (Vector3.y v + dy) (Vector3.z v)) w.

Definition tempVec_add_x (dx : R) (w : World) : World :=
  let v := tempVec w in
  set_tempVec (Vector3.mk (Vector3.x v + dx) (Vector3.y v) (Vector3.z v)) w.

(** Lines 255-272: the desired position, left in [tempVec]. *)
Definition setTarget (isExploded : bool) (state : RootState)
    (worldToLocal : Vector3.t -> Vector3.t) (time : R)
    (d : Particle) (i : nat) (w : World) : World :=
  if isExploded then
    let w :=
      match type d with
      | front =>
          let w := set_tempWorldTarget (offset d) w in
          let w := set_tempWorldTarget
                     (applyQuaternion (tempWorldTarget w) (camera_quaternion state)) w in
          let w := set_tempWorldTarget
                     (Vector3.add (tempWorldTarget w) (camera_position state)) w in
          let w := set_tempWorldTarget (worldToLocal (tempWorldTarget w)) w in
          set_tempVec (tempWorldTarget w) w
      | surround =>
          let w := set_tempVec (camLocalPos w) w in
          set_tempVec (Vector3.add (tempVec w) (offset d)) w
      | scatter => set_tempVec (fixedTarget d) w
      end in
    let w := tempVec_add_y (sin (time + INR i * 0.1) * 0.2) w in
    tempVec_add_x (cos (time * 0.5 + INR i * 0.1) * 0.1) w
  else set_tempVec (home d) w.

(** The factor of line 274. *)
Definition lerpFactor (delta speed r : R) : R := delta * speed * (0.8 + r * 0.4).

(** The body of [data.forEach((d, i) => ...)]. *)
Definition forEach_body (isExploded : bool) (state : RootState) (delta : R)
    (worldToLocal : Vector3.t -> Vector3.t) (speed time : R)
    (d : Particle) (i : nat) (w : World) : Particle * World :=
  let w := setTarget isExploded state worldToLocal time d i w in
  let target := tempVec w in
  let (r, w) := World_random w in
  let d := set_currentPos
             (Vector3.lerp (currentPos d) target (lerpFactor delta speed r)) d in
  let o := dummy w in
  let o := Object3D.mk (currentPos d) (Object3D.rotation o)
                       (Object3D.scale o) (Object3D.matrix o) in
  let o := Object3D.mk (Object3D.position o)
                       (mkEuler (time * rotSpeed d) (time * rotSpeed d * 0.5) 0)
                       (Object3D.scale o) (Object3D.matrix o) in
  let s := scale d in
  let s :=
    if negb isExploded then
      let dist := Vector3.distanceTo (currentPos d) (home d) in
      if ltb dist 0.2 then scale d * (dist * 5) else s
    else s in
  let o := Object3D.mk (Object3D.position o) (Object3D.rotation o)
                       (Vector3.mk s s s) (Object3D.matrix o) in
  let o := Object3D.updateMatrix o in
  let w := set_dummy o w in
  let w := on_mesh (setMatrixAt i (Object3D.matrix (dummy w))) w in
  let twinkle := sin (time * 5 + phase d) in
  let intensity := 1.5 + (if gtb twinkle 0.5 then twinkle * 2 else 0) in
  let w := set_tempColor (Color.multiplyScalar (color d) intensity) w in
  let w := on_mesh (setColorAt i (tempColor w)) w in
  (d, w).

(** [data.forEach], from index [i] on. *)
Fixpoint forEach (body : Particle -> nat -> World -> Particle * World)
    (data : list Particle) (i : nat) (w : World) : list Particle * World :=
  match data with
  | [] => ([], w)
  | d :: rest =>
      let (d', w') := body d i w in
      let (rest', w'') := forEach body rest (S i) w' in
      (d' :: rest', w'')
  end.

(** The callback [useFrame((state, delta) => ...)] of [HeartParticles].
    [worldToLocal] is the map of the mesh once [updateMatrixWorld] has
    run. *)
Definition HeartParticles_useFrame (isExploded : bool) (state : RootState)
    (delta : R) (worldToLocal : Vector3.t -> Vector3.t)
    (data : list Particle) (w : World) : list Particle * World :=
  match meshRef_current w with
  | None => (data, w)
  | Some _ =>
      let speed := if isExploded then 3 else 6 in
      let time := clock_elapsedTime state in
      let w := set_camLocalPos (camera_position state) w in
      let w := set_camLocalPos (worldToLocal (camLocalPos w)) w in
      let (data, w) :=
        forEach (forEach_body isExploded state delta worldToLocal speed time)
                data 0 w in
      (data, on_mesh markNeedsUpdate w)
  end.

(** *** The scene: controller, rig and particles together

    [data] is made once, by [useMemo] with no dependencies: a render after
    [setHandOpen] or [setCameraEnabled] hands the same particles to the next
    frame. *)

Record Scene := mkScene {
  app : AppState;
  group_current : option Object3D.t;
  data : list Particle;
  world : World
}.

Inductive Event :=
  | input (i : Input)
  | frame (state : RootState) (delta : R) (worldToLocal : Vector3.t -> Vector3.t).

Definition step (e : Event) (s : Scene) : Scene :=
  match e with
  | input i => mkScene (handle i (app s)) (group_current s) (data s) (world s)
  | frame state delta worldToLocal =>
      let (data', world') :=
        HeartParticles_useFrame (isExploded (app s)) state delta worldToLocal
                                (data s) (world s) in
      mkScene (app s)
              (Rig_useFrame (cameraEnabled (app s)) (handPos (app s)) state
                            (group_current s))
              data' world'
  end.

Definition run (es : list Event) (s : Scene) : Scene :=
  fold_left (fun s e => step e s) es s.

End HeartParticles.

(** ** Pure readings of the frame callback, used to state its properties *)

(** The oscillation of lines 268-269. *)
Definition oscillation (time : R) (i : nat) (v : Vector3.t) : Vector3.t :=
  Vector3.mk (Vector3.x v + cos (time * 0.5 + INR i * 0.1) * 0.1)
             (Vector3.y v + sin (time + INR i * 0.1) * 0.2)
             (Vector3.z v).

(** The desired position of particle [i] in a frame, [camLocal] being the
    camera position in the frame of the mesh. *)
Definition desiredPosition
    (applyQuaternion : Vector3.t -> Quaternion -> Vector3.t)
    (isExploded : bool) (state : RootState)
    (worldToLocal : Vector3.t -> Vector3.t) (camLocal : Vector3.t)
    (d : Particle) (i : nat) : Vector3.t :=
  if isExploded then
    oscillation (clock_elapsedTime state) i
      match type d with
      | front =>
          worldToLocal
            (Vector3.add (applyQuaternion (offset d) (camera_quaternion state))
                         (camera_position state))
      | surround => Vector3.add camLocal (offset d)
      | scatter => fixedTarget d
      end
  else home d.

(** Where the frame callback leaves particle [j] when the mesh is mounted. *)
Definition movedParticle (random : RandomSource)
    (applyQuaternion : Vector3.t -> Quaternion -> Vector3.t)
    (isExploded : bool) (state : RootState) (delta : R)
    (worldToLocal : Vector3.t -> Vector3.t) (w : World) (d : Particle) (j : nat)
  : Particle :=
  set_currentPos
    (Vector3.lerp (currentPos d)
       (desiredPosition applyQuaternion isExploded state worldToLocal
                        (worldToLocal (camera_position state)) d j)
       (lerpFactor delta (if isExploded then 3 else 6) (random (draws w + j)%nat)))
    d.

(** The factor of line 286. *)
Definition intensity (time : R) (d : Particle) : R :=
  let twinkle := sin (time * 5 + phase d) in
  1.5 + (if gtb twinkle 0.5 then twinkle * 2 else 0).

(** The fields of a particle other than [currentPos]. *)
Definition descriptor (d : Particle)
  : Vector3.t * ParticleType * Vector3.t * Vector3.t * Color.t * R * R * R :=
  (home d, type d, offset d, fixedTarget d, color d, rotSpeed d, scale d, phase d).

Definition isFrame (e : Event) : bool :=
  match e with
  | frame _ _ _ => true
  | input _ => false
  end.

(** A frame whose interpolation factor, at the speed of the gathered state,
    lies in [[lo, hi]] whatever the jitter draw. *)
Definition gatherFrame (lo hi : R) (e : Event) : Prop :=
  match e with
  | frame _ delta _ => forall r : Draw, lo <= lerpFactor delta 6 r <= hi
  | input _ => False
  end.

(** ** The mushroom ([Mushroom], lines 61-96) *)

Record MushroomRefs := mkMushroomRefs {
  groupRef_current : option Object3D.t;
  jellyRef_current : option Object3D.t
}.

(** The [useFrame] callback of [Mushroom]. *)
Definition Mushroom_useFrame (isExploded : bool) (state : RootState) (delta : R)
    (m : MushroomRefs) : MushroomRefs :=
  let time := clock_elapsedTime state in
  let group' :=
    match groupRef_current m with
    | Some group =>
        let targetScale := if isExploded then 0 else 1 in
        let step := delta * 8 in
        let group :=
          Object3D.mk (Object3D.position group) (Object3D.rotation group)
            (Vector3.lerp (Object3D.scale group)
                          (Vector3.mk targetScale targetScale targetScale) step)
            (Object3D.matrix group) in
        let group :=
          if negb isExploded then
            Object3D.mk (Object3D.position group)
              (mkEuler (ex (Object3D.rotation group))
                       (MathUtils.lerp (ey (Object3D.rotation group))
                                       (sin (time * 0.5) * 0.1) (step * 0.1))
                       (ez (Object3D.rotation group)))
              (Object3D.scale group) (Object3D.matrix group)
          else group in
        Some group
    | None => None
    end in
  let jelly' :=
    match jellyRef_current m with
    | Some jelly =>
        if negb isExploded then
          let bounceFreq := 4 in
          let bounceAmp := 0.03 in
          let scaleBase := 1.08 in
          let wobble := sin (time * bounceFreq) * bounceAmp in
          Some (Object3D.mk (Object3D.position jelly) (Object3D.rotation jelly)
                  (Vector3.mk (scaleBase + wobble) (scaleBase - wobble)
                              (scaleBase + wobble))
                  (Object3D.matrix jelly))
        else Some jelly
    | None => None
    end in
  mkMushroomRefs group' jelly'.

(** The callback over successive frames, each with its display state. *)
Definition Mushroom_frames (fs : list (bool * RootState * R)) (m : MushroomRefs)
  : MushroomRefs :=
  fold_left (fun m f => let '(isExploded, state, delta) := f in
                        Mushroom_useFrame isExploded state delta m) fs m.

(** ** The fluorescent particles ([src/FluorescentParticles.tsx]) *)

Module FluorescentParticles.

Record particle := mk {
  position : Vector3.t;
  color : Color.t;
  scale : R;
  phase : R;
  speed : R;
  basePos : Vector3.t
}.

Definition neonColors : list string :=
  ["#ccff00"; "#00ffcc"; "#ff00ff"; "#ffffff"; "#ffff00"; "#ff3333"]%string.

(** What the callbacks mutate: the scratch object and the mesh behind
    [meshRef]. *)
Record refs := mkRefs {
  dummy : Object3D.t;
  meshRef_current : option InstancedMesh
}.

Definition on_mesh (f : InstancedMesh -> InstancedMesh) (w : refs) : refs :=
  mkRefs (dummy w) (option_map f (meshRef_current w)).

Section Component.

Variable random : RandomSource.
Variable THREE_Color : string -> Color.t.

Notation "x <- c ;; k" := (bind c (fun x => k))
  (at level 61, c at next level, right associativity).

(** One turn of the loop of lines 13-40. *)
Definition createParticle : Rand particle :=
  a <- Math_random random ;;
  let r := 1.52 + a * 0.12 in
  u <- Math_random random ;;
  v <- Math_random random ;;
  let theta := 2 * PI * u in
  b <- Math_random random ;;
  let phi := acos (1 - b) in
  c <- Math_random random ;;
  let phiClamped := c * (PI / 2 - 0.1) in
  let x := r * sin phiClamped * cos theta in
  let y := r * cos phiClamped in
  let z := r * sin phiClamped * sin theta in
  k <- Math_random random ;;
  let color :=
    THREE_Color
      (nth (Math_floor (k * INR (List.length neonColors))) neonColors EmptyString) in
  e <- Math_random random ;;
  let scale := 0.5 + e * 1.0 in
  f <- Math_random random ;;
  let phase := f * PI * 2 in
  g <- Math_random random ;;
  let speed := 0.5 + g * 0.5 in
  ret (mk (Vector3.mk x y z) color scale phase speed (Vector3.mk x y z)).

Fixpoint createParticles (count : nat) : Rand (list particle) :=
  match count with
  | O => ret []
  | S count' =>
      p <- createParticle ;;
      temp <- createParticles count' ;;
      ret (p :: temp)
  end.

End Component.

(** [particles.forEach((p, i) => ...)], from index [i] on; the bodies below
    read the particle and do not write it. *)
Fixpoint forEach (body : particle -> nat -> refs -> refs)
    (particles : list particle) (i : nat) (w : refs) : refs :=
  match particles with
  | [] => w
  | p :: rest => forEach body rest (S i) (body p i w)
  end.

(** The body of the loop of [useLayoutEffect] (lines 46-52). *)
Definition layout_body (p : particle) (i : nat) (w : refs) : refs :=
  let o := dummy w in
  let o := Object3D.mk (position p) (Object3D.rotation o)
                       (Object3D.scale o) (Object3D.matrix o) in
  let o := Object3D.mk (Object3D.position o) (Object3D.rotation o)
                       (Vector3.mk (scale p) (scale p) (scale p))
                       (Object3D.matrix o) in
  let o := Object3D.updateMatrix o in
  let w := mkRefs o (meshRef_current w) in
  let w := on_mesh (setMatrixAt i (Object3D.matrix (dummy w))) w in
  on_mesh (setColorAt i (color p)) w.

(** [useLayoutEffect(() => ..., [particles, dummy])] *)
Definition useLayoutEffect (particles : list particle) (w : refs) : refs :=
  match meshRef_current w with
  | None => w
  | Some _ => on_mesh markNeedsUpdate (forEach layout_body particles 0 w)
  end.

(** The body of the loop of [useFrame] (lines 61-78). *)
Definition frame_body (time : R) (p : particle) (i : nat) (w : refs) : refs :=
  let bounceY := sin (time * 3 + phase p) * 0.03 in
  let wobbleX := cos (time * 2 + phase p) * 0.01 in
  let o := dummy w in
  let o := Object3D.mk (basePos p) (Object3D.rotation o)
                       (Object3D.scale o) (Object3D.matrix o) in
  let o := Object3D.mk
             (Vector3.mk (Vector3.x (Object3D.position o))
                         (Vector3.y (Object3D.position o) + bounceY)
                         (Vector3.z (Object3D.position o)))
             (Object3D.rotation o) (Object3D.scale o) (Object3D.matrix o) in
  let o := Object3D.mk
             (Vector3.mk (Vector3.x (Object3D.position o) + wobbleX)
                         (Vector3.y (Object3D.position o))
                         (Vector3.z (Object3D.position o)))
             (Object3D.rotation o) (Object3D.scale o) (Object3D.matrix o) in
  let pulse := 1 + sin (time * 4 + phase p) * 0.3 in
  let s := scale p * pulse in
  let o := Object3D.mk (Object3D.position o) (Object3D.rotation o)
                       (Vector3.mk s s s) (Object3D.matrix o) in
  let o := Object3D.updateMatrix o in
  let w := mkRefs o (meshRef_current w) in
  on_mesh (setMatrixAt i (Object3D.matrix (dummy w))) w.

(** [instanceMatrix.needsUpdate = true] *)
Definition markMatrixNeedsUpdate (mesh : InstancedMesh) : InstancedMesh :=
  mkMesh (instanceMatrix mesh) (instanceColor mesh) true
         (instanceColor_needsUpdate mesh).

(** [useFrame((state) => ...)] *)
Definition useFrame (state : RootState) (particles : list particle) (w : refs)
  : refs :=
  match meshRef_current w with
  | None => w
  | Some _ =>
      let time := clock_elapsedTime state in
      on_mesh markMatrixNeedsUpdate (forEach (frame_body time) particles 0 w)
  end.

Definition frames (states : list RootState) (particles : list particle) (w : refs)
  : refs :=
  fold_left (fun w state => useFrame state particles w) states w.

(** The matrix [useFrame] writes for a particle at time [time], the scratch
    object having the rotation [rot]. *)
Definition frameMatrix (time : R) (rot : Euler) (p : particle) : Matrix4 :=
  let s := scale p * (1 + sin (time * 4 + phase p) * 0.3) in
  compose
    (Vector3.mk (Vector3.x (basePos p) + cos (time * 2 + phase p) * 0.01)
                (Vector3.y (basePos p) + sin (time * 3 + phase p) * 0.03)
                (Vector3.z (basePos p)))
    rot (Vector3.mk s s s).

End FluorescentParticles.

(** ** Further readings of the heart particles *)

(** The desired position of an exploded particle before the oscillation is
    added. *)
Definition archetypeBase
    (applyQuaternion : Vector3.t -> Quaternion -> Vector3.t)
    (state : RootState) (worldToLocal : Vector3.t -> Vector3.t)
    (camLocal : Vector3.t) (d : Particle) : Vector3.t :=
  match type d with
  | front =>
      worldToLocal
        (Vector3.add (applyQuaternion (offset d) (camera_quaternion state))
                     (camera_position state))
  | surround => Vector3.add camLocal (offset d)
  | scatter => fixedTarget d
  end.

(** The scale of lines 277-282, for a particle already moved. *)
Definition instanceScale (isExploded : bool) (d : Particle) : R :=
  if negb isExploded then
    let dist := Vector3.distanceTo (currentPos d) (home d) in
    if ltb dist 0.2 then scale d * (dist * 5) else scale d
  else scale d.

(** The matrix of lines 275-284, for a particle already moved. *)
Definition instanceMatrixOf (isExploded : bool) (time : R) (d : Particle) : Matrix4 :=
  let s := instanceScale isExploded d in
  compose (currentPos d)
          (mkEuler (time * rotSpeed d) (time * rotSpeed d * 0.5) 0)
          (Vector3.mk s s s).

(** The colour of instance [k] in the colour buffer, once written. *)
Definition colorAt (mesh : InstancedMesh) (k : nat) : option Color.t :=
  match instanceColor mesh with
  | Some buffer => buffer k
  | None => None
  end.

(** A frame whose interpolation factor, at the speed of the exploded state,
    lies in [[lo, 1]] whatever the jitter draw. *)
Definition explodeFrame (lo : R) (e : Event) : Prop :=
  match e with
  | frame _ delta _ => forall r : Draw, lo <= lerpFactor delta 3 r <= 1
  | input _ => False
  end.

(** The inputs of the controller, in order. *)
Definition handleAll (inputs : list Input) (s : AppState) : AppState :=
  fold_left (fun s i => handle i s) inputs s.

(** The last pointer event of a list of inputs: [Some false] for a press,
    [Some true] for a release. *)
Fixpoint lastPointer (inputs : list Input) : option bool :=
  match inputs with
  | [] => None
  | i :: rest =>
      match lastPointer rest with
      | Some v => Some v
      | None =>
          match i with
          | PointerDown => Some false
          | PointerUp => Some true
          | _ => None
          end
      end
  end.

Definition isModeButton (i : Input) : bool :=
  match i with
  | TouchModeButton | CameraModeButton => true
  | _ => false
  end.

(** ** Sample inputs *)

Definition draw_of (num : Z) (den : positive) (H : (0 <=? num)%Z && (num <? Z.pos den)%Z = true)
  : Draw.
Proof.
  refine (mkDraw (IZR num / IZR (Z.pos den)) _).
  apply andb_prop in H as [H0 H1].
  apply Z.leb_le in H0. apply Z.ltb_lt in H1.
  assert (0 < IZR (Z.pos den)) by (apply IZR_lt; lia).
  split.
  - apply Rmult_le_pos; [apply IZR_le; assumption | left; apply Rinv_0_lt_compat; assumption].
  - apply (Rmult_lt_reg_r (IZR (Z.pos den))); [assumption |].
    unfold Rdiv. rewrite Rmult_assoc, Rinv_l, Rmult_1_r, Rmult_1_l by lra.
    apply IZR_lt; assumption.
Defined.

Definition draw_half : Draw := draw_of 1 2 eq_refl.
Definition draw_high : Draw := draw_of 9 10 eq_refl.

(** Every draw is 1/2. *)
Definition halves : RandomSource := fun _ => draw_half.

(** Draw number 4, which chooses the type, is 9/10; the others are 1/2. *)
Definition halves_but_4 : RandomSource :=
  fun n => if Nat.eqb n 4 then draw_high else draw_half.

(** Draw number 4, which chooses the type, and draw number 5, the first of
    the direction, are 9/10; the others are 1/2. *)
Definition halves_but_4_and_5 : RandomSource :=
  fun n => if Nat.eqb n 4 then draw_high
           else if Nat.eqb n 5 then draw_high else draw_half.

Definition identityQuaternion : Vector3.t -> Quaternion -> Vector3.t := fun v _ => v.

Definition white : string -> Color.t := fun _ => Color.mk 1 1 1.

Definition sample_state (time : R) : RootState :=
  mkRootState time (Vector3.mk 0 2 7) (mkQuaternion 0 0 0 1) (Vector2.mk 0 0).

Definition sample_object : Object3D.t :=
  Object3D.mk Vector3.zero (mkEuler 0 0 0) (Vector3.mk 1 1 1)
              (compose Vector3.zero (mkEuler 0 0 0) (Vector3.mk 1 1 1)).

Definition sample_mesh : InstancedMesh := mkMesh (fun _ => None) None false false.

Definition sample_world : World :=
  mkWorld 0 sample_object (Color.mk 1 1 1) Vector3.zero Vector3.zero Vector3.zero
          (Some sample_mesh).

(** A particle away from its home. *)
Definition sample_particle (t : ParticleType) : Particle :=
  mkParticle (Vector3.mk 1 0 0) t (Vector3.mk 0 0 (-2)) (Vector3.mk 0 8 0)
             (Color.mk 1 1 1) 1 0.1 Vector3.zero 0.

Definition sample_scene (isOpen cam : bool) (t : ParticleType) : Scene :=
  mkScene (mkApp isOpen cam (Vector2.mk 0 0) "None")
          (Some sample_object) [sample_particle t] sample_world.

Definition open_palm (score : R) : GestureRecognizerResult :=
  mkResult [[mkCategory "Open_Palm" score]] None.

Definition hand_at (x y : R) : GestureRecognizerResult :=
  mkResult [] (Some [repeat (mkLandmark x y) 21]).

(** * Properties *)

Lemma ltb_true_iff a b : ltb a b = true <-> a < b.
Proof. unfold ltb; destruct (Rlt_dec a b); split; intros; congruence || lra. Qed.

Lemma ltb_false_iff a b : ltb a b = false <-> b <= a.
Proof. unfold ltb; destruct (Rlt_dec a b); split; intros; congruence || lra. Qed.

Lemma gtb_true_iff a b : gtb a b = true <-> a > b.
Proof. unfold gtb; destruct (Rgt_dec a b); split; intros; congruence || lra. Qed.

Lemma gtb_false_iff a b : gtb a b = false <-> a <= b.
Proof. unfold gtb; destruct (Rgt_dec a b); split; intros; congruence || lra. Qed.

(** ** The display-state controller *)

Lemma calls_app cs1 cs2 s : calls (cs1 ++ cs2) s = calls cs2 (calls cs1 s).
Proof. unfold calls; apply fold_left_app. Qed.

Lemma landmarks_only_move results c :
  In c (predictWebcam_landmarks results) -> exists pos, c = onHandMove pos.
Proof.
  unfold predictWebcam_landmarks.
  destruct (landmarks results) as [[|hand hands]|]; try (intros []).
  destruct (nth_error hand 9); [|intros []].
  intros [<-|[]]; eauto.
Qed.

Lemma landmarks_keep_isHandOpen results s :
  isHandOpen (calls (predictWebcam_landmarks results) s) = isHandOpen s.
Proof.
  unfold predictWebcam_landmarks.
  destruct (landmarks results) as [[|hand hands]|]; try reflexivity.
  destruct (nth_error hand 9); reflexivity.
Qed.

Lemma run_frames_keep_app random aq es s :
  forallb isFrame es = true -> app (run random aq es s) = app s.
Proof.
  unfold run. revert s.
  induction es as [|e es IH]; intros s H; simpl in *; [reflexivity|].
  apply andb_prop in H as [He Hes].
  rewrite IH by assumption.
  destruct e; [discriminate|].
  simpl. destruct (HeartParticles_useFrame _ _ _ _ _ _ _ _); reflexivity.
Qed.

(** C1, as the code has it: the controller has two states, and it starts
    in the exploded one.  [useState(true)] makes [isHandOpen], which
    [HeartParticles] receives as [isExploded], true at the start, and frames
    alone do not change it. *)
Theorem C1_two_states_starts_exploded
    (random : RandomSource) (aq : Vector3.t -> Quaternion -> Vector3.t)
    (es : list Event) (s : Scene) :
  app s = App_init ->
  forallb isFrame es = true ->
  (forall a : AppState, isExploded a = false \/ isExploded a = true) /\
  isExploded App_init = true /\
  isExploded (app (run random aq es s)) = true.
Proof.
  intros Hs Hes. repeat split.
  - intro a. destruct (isExploded a); auto.
  - rewrite run_frames_keep_app, Hs by assumption. reflexivity.
Qed.

Lemma C1_two_states_starts_exploded_witness :
  isExploded
    (app (run halves identityQuaternion
              [frame (sample_state 0) (1 / 60) (fun v => v)]
              (mkScene App_init None [] sample_world))) = true.
Proof.
  apply (C1_two_states_starts_exploded halves identityQuaternion
           [frame (sample_state 0) (1 / 60) (fun v => v)]
           (mkScene App_init None [] sample_world)); reflexivity.
Defined.

(** C1 does not hold as written: at the start the boolean is not [false]. *)
Lemma C1_initial_state_is_not_gathered : isExploded App_init <> false.
Proof. discriminate. Qed.

(** C2: in camera mode the state moves exactly when the top gesture is
    "Open_Palm" or "Closed_Fist" with a score above 0.5; then the state
    becomes exploded, respectively gathered.  Any other name, and any score
    of at most 0.5, leaves the state as it is, and no call of [onGesture]
    is made; so does a result without a gesture, and so does every input
    other than a result of the recogniser. *)
Theorem C2_gesture_threshold (s : AppState) (results : GestureRecognizerResult) :
  cameraEnabled s = true ->
  let s' := handle (Recognized results) s in
  match gestures results with
  | (top :: _) :: _ =>
      (categoryName top = "Open_Palm"%string -> score top > 0.5 ->
       isExploded s' = true) /\
      (categoryName top = "Closed_Fist"%string -> score top > 0.5 ->
       isExploded s' = false) /\
      (score top <= 0.5 \/
       (categoryName top <> "Open_Palm"%string /\
        categoryName top <> "Closed_Fist"%string) ->
       isExploded s' = isExploded s) /\
      ((exists v, In (onGesture v) (predictWebcam results)) <->
       score top > 0.5 /\
       (categoryName top = "Open_Palm"%string \/
        categoryName top = "Closed_Fist"%string))
  | _ =>
      isExploded s' = isExploded s /\
      forall v, ~ In (onGesture v) (predictWebcam results)
  end /\
  (forall i : Input,
      (forall r, i <> Recognized r) -> isExploded (handle i s) = isExploded s).
Proof.
  intros Hcam s'. subst s'. split.
  2: { intros i Hi. unfold handle.
       destruct i; try rewrite Hcam; try reflexivity.
       exfalso. eapply Hi. reflexivity. }
  unfold isExploded, handle. rewrite Hcam.
  unfold predictWebcam, predictWebcam_gestures.
  destruct (gestures results) as [|[|top others] hands].
  - rewrite calls_app, landmarks_keep_isHandOpen. split; [reflexivity|].
    intros v [Hv | Hv]; [discriminate|].
    apply landmarks_only_move in Hv as [pos Hv]. discriminate.
  - split; [reflexivity|]. intros v [].
  - destruct (gtb (score top) 0.5) eqn:Hs.
    + apply gtb_true_iff in Hs.
      destruct (String.eqb (categoryName top) "Closed_Fist") eqn:Hf;
        [apply String.eqb_eq in Hf | apply String.eqb_neq in Hf].
      * rewrite calls_app, landmarks_keep_isHandOpen. simpl.
        split; [|split; [|split; [|split]]].
        -- intros Ho _. rewrite Hf in Ho. discriminate.
        -- reflexivity.
        -- intros [Hle | [_ Hn]]; [lra | contradiction].
        -- intros _. split; [assumption | right; assumption].
        -- intros _. exists false. simpl. auto.
      * destruct (String.eqb (categoryName top) "Open_Palm") eqn:Ho;
          [apply String.eqb_eq in Ho | apply String.eqb_neq in Ho];
          rewrite calls_app, landmarks_keep_isHandOpen; simpl.
        -- split; [|split; [|split; [|split]]].
           ++ reflexivity.
           ++ intros; contradiction.
           ++ intros [Hle | [Hn _]]; [lra | contradiction].
           ++ intros _. split; [assumption | left; assumption].
           ++ intros _. exists true. simpl. auto.
        -- split; [|split; [|split; [|split]]].
           ++ intros; contradiction.
           ++ intros; contradiction.
           ++ reflexivity.
           ++ intros [v [Hv | Hv]]; [discriminate|].
              apply landmarks_only_move in Hv as [pos Hv]. discriminate.
           ++ intros [_ [Hc | Hc]]; contradiction.
    + apply gtb_false_iff in Hs. simpl.
      rewrite landmarks_keep_isHandOpen.
      split; [|split; [|split; [|split]]].
      * intros; lra.
      * intros; lra.
      * reflexivity.
      * intros [v Hv].
        apply landmarks_only_move in Hv as [pos Hv]. discriminate.
      * intros [Hgt _]; lra.
Qed.

Lemma C2_gesture_threshold_witness :
  isExploded (handle (Recognized (open_palm 0.5))
                     (mkApp false true (Vector2.mk 0 0) "None")) = false /\
  isExploded (handle (Recognized (open_palm 0.51))
                     (mkApp false true (Vector2.mk 0 0) "None")) = true.
Proof.
  split.
  - destruct (C2_gesture_threshold (mkApp false true (Vector2.mk 0 0) "None")
                (open_palm 0.5) eq_refl) as [(_ & _ & H & _) _].
    apply H. left. simpl. lra.
  - destruct (C2_gesture_threshold (mkApp false true (Vector2.mk 0 0) "None")
                (open_palm 0.51) eq_refl) as [(H & _) _].
    apply H; [reflexivity | simpl; lra].
Defined.

(** ** The look-around vector *)

Lemma clamp1_in_range v : -1 <= v <= 1 -> clamp1 v = v.
Proof.
  intros H. unfold clamp1.
  destruct (Rlt_dec v (-1)); [lra|]. destruct (Rgt_dec v 1); [lra|]. reflexivity.
Qed.

(** C9, as the code has it: the look vector is used as it is handed over,
    without a clamp.  In camera mode the landmark [hand[9]] at [(cx, cy)]
    is stored as [((cx - 0.5) * 2, (cy - 0.5) * 2)], and [Rig] turns the
    group a tenth of the way to [x * 3 / 2] and [- y * 3 / 2]; in pointer
    mode it does the same with the pointer, unscaled.  A landmark inside
    the image, with components in [0, 1], gives components in [-1, 1],
    which a clamp would leave as they are. *)
Theorem C9_look_vector_unclamped
    (s : AppState) (results : GestureRecognizerResult)
    (hand : list NormalizedLandmark) (hands : list (list NormalizedLandmark))
    (centerPoint : NormalizedLandmark) (state : RootState) (group : Object3D.t) :
  cameraEnabled s = true ->
  predictWebcam_gestures results <> None ->
  landmarks results = Some (hand :: hands) ->
  nth_error hand 9 = Some centerPoint ->
  let s' := handle (Recognized results) s in
  let look := handPos s' in
  look = Vector2.mk ((lm_x centerPoint - 0.5) * 2) ((lm_y centerPoint - 0.5) * 2) /\
  Rig_useFrame true look state (Some group) =
    Some (Object3D.mk
            (Object3D.position group)
            (mkEuler
               (MathUtils.lerp (ex (Object3D.rotation group))
                               (- (Vector2.y look * 3) / 2) 0.1)
               (MathUtils.lerp (ey (Object3D.rotation group))
                               (Vector2.x look * 3 / 2) 0.1)
               (ez (Object3D.rotation group)))
            (Object3D.scale group) (Object3D.matrix group)) /\
  Rig_useFrame false look state (Some group) =
    Some (Object3D.mk
            (Object3D.position group)
            (mkEuler
               (MathUtils.lerp (ex (Object3D.rotation group))
                               (- Vector2.y (pointer state) / 2) 0.1)
               (MathUtils.lerp (ey (Object3D.rotation group))
                               (Vector2.x (pointer state) / 2) 0.1)
               (ez (Object3D.rotation group)))
            (Object3D.scale group) (Object3D.matrix group)) /\
  (0 <= lm_x centerPoint <= 1 -> 0 <= lm_y centerPoint <= 1 ->
   -1 <= Vector2.x look <= 1 /\ -1 <= Vector2.y look <= 1 /\
   clampLook look = look).
Proof.
  intros Hcam Hg Hl Hc s' look.
  assert (Hlook : look =
            Vector2.mk ((lm_x centerPoint - 0.5) * 2) ((lm_y centerPoint - 0.5) * 2)).
  { subst look s'. unfold handle. rewrite Hcam. unfold predictWebcam.
    destruct (predictWebcam_gestures results) as [cs|] eqn:E; [|contradiction].
    rewrite calls_app. unfold predictWebcam_landmarks. rewrite Hl, Hc.
    reflexivity. }
  split; [assumption|].
  split; [unfold Rig_useFrame; simpl; repeat f_equal; lra|].
  split; [reflexivity|].
  intros Hx Hy. rewrite Hlook. simpl.
  assert (Bx : -1 <= (lm_x centerPoint - 0.5) * 2 <= 1) by lra.
  assert (By : -1 <= (lm_y centerPoint - 0.5) * 2 <= 1) by lra.
  repeat split; try lra.
  unfold clampLook. simpl. rewrite !clamp1_in_range by assumption. reflexivity.
Qed.

Lemma C9_look_vector_unclamped_witness :
  handPos (handle (Recognized (hand_at 0.75 0.5))
                  (mkApp true true (Vector2.mk 0 0) "None")) =
  Vector2.mk ((0.75 - 0.5) * 2) ((0.5 - 0.5) * 2).
Proof.
  apply (C9_look_vector_unclamped
           (mkApp true true (Vector2.mk 0 0) "None") (hand_at 0.75 0.5)
           (repeat (mkLandmark 0.75 0.5) 21) [] (mkLandmark 0.75 0.5)
           (sample_state 0) sample_object);
    [reflexivity | discriminate | reflexivity | reflexivity].
Defined.

(** C9 does not hold as written: a landmark at [x = 2] is handed over as the look
    component 3, and [Rig] turns the group by it, not by its clamp. *)
Lemma C9_out_of_range_look_is_not_clamped :
  let s := handle (Recognized (hand_at 2 0.5))
                  (mkApp true true (Vector2.mk 0 0) "None") in
  Vector2.x (handPos s) = 3 /\
  Rig_useFrame true (handPos s) (sample_state 0) (Some sample_object) <>
  Rig_useFrame true (clampLook (handPos s)) (sample_state 0) (Some sample_object).
Proof.
  simpl. split; [lra|].
  unfold Rig_useFrame, clampLook, clamp1, MathUtils.lerp. simpl.
  destruct (Rlt_dec ((2 - 0.5) * 2) (-1)); [lra|].
  destruct (Rgt_dec ((2 - 0.5) * 2) 1); [|lra].
  intros H. injection H as H1 H2. lra.
Qed.

(** ** The frame callback of the particles *)

Lemma forEach_cons body d rest i w :
  forEach body (d :: rest) i w =
  (fst (body d i w) :: fst (forEach body rest (S i) (snd (body d i w))),
   snd (forEach body rest (S i) (snd (body d i w)))).
Proof.
  simpl. destruct (body d i w) as [d' w']. cbn [fst snd].
  destruct (forEach body rest (S i) w') as [rest' w'']. reflexivity.
Qed.

Section Frame.

Variable random : RandomSource.
Variable aq : Vector3.t -> Quaternion -> Vector3.t.
Variable isExploded : bool.
Variable state : RootState.
Variable delta : R.
Variable w2l : Vector3.t -> Vector3.t.
Variable speed : R.

Local Abbreviation time := (clock_elapsedTime state).
Local Abbreviation body :=
  (forEach_body random aq isExploded state delta w2l speed time).

(** What one turn of the loop writes for particle [d]. *)
Local Abbreviation moved d i w :=
  (set_currentPos
     (Vector3.lerp (currentPos d)
        (desiredPosition aq isExploded state w2l (camLocalPos w) d i)
        (lerpFactor delta speed (random (draws w))))
     d).

Lemma setTarget_tempVec d i w :
  tempVec (setTarget aq isExploded state w2l time d i w) =
  desiredPosition aq isExploded state w2l (camLocalPos w) d i.
Proof.
  unfold setTarget, desiredPosition.
  destruct isExploded; [|reflexivity].
  destruct (type d); reflexivity.
Qed.

Lemma setTarget_frame d i w :
  let w' := setTarget aq isExploded state w2l time d i w in
  draws w' = draws w /\ camLocalPos w' = camLocalPos w /\
  meshRef_current w' = meshRef_current w.
Proof.
  unfold setTarget.
  destruct isExploded; [|auto].
  destruct (type d); auto.
Qed.

Lemma body_fst d i w : fst (body d i w) = moved d i w.
Proof.
  unfold body, forEach_body, moved, World_random, Math_random.
  destruct (setTarget_frame d i w) as (Hd & Hc & _).
  rewrite <- setTarget_tempVec, <- Hd.
  reflexivity.
Qed.

Lemma body_draws d i w : draws (snd (body d i w)) = S (draws w).
Proof.
  unfold body, forEach_body, World_random, Math_random.
  destruct (setTarget_frame d i w) as (Hd & _ & _).
  simpl. rewrite Hd. reflexivity.
Qed.

Lemma body_camLocalPos d i w : camLocalPos (snd (body d i w)) = camLocalPos w.
Proof.
  unfold body, forEach_body, World_random, Math_random.
  destruct (setTarget_frame d i w) as (_ & Hc & _).
  simpl. rewrite Hc. reflexivity.
Qed.

Lemma body_mesh d i w :
  exists m,
    meshRef_current (snd (body d i w)) =
    option_map
      (fun mesh =>
         setColorAt i (Color.multiplyScalar (color d) (intensity time d))
                    (setMatrixAt i m mesh))
      (meshRef_current w).
Proof.
  unfold body, forEach_body, World_random, Math_random.
  destruct (setTarget_frame d i w) as (_ & _ & Hm).
  eexists. simpl. rewrite Hm.
  destruct (meshRef_current w); reflexivity.
Qed.

Lemma forEach_length data i0 w :
  List.length (fst (forEach body data i0 w)) = List.length data.
Proof.
  revert i0 w. induction data as [|d rest IH]; intros i0 w; [reflexivity|].
  rewrite forEach_cons. cbn [fst List.length]. rewrite IH. reflexivity.
Qed.

Lemma forEach_draws data i0 w :
  draws (snd (forEach body data i0 w)) = (draws w + List.length data)%nat.
Proof.
  revert i0 w. induction data as [|d rest IH]; intros i0 w.
  - cbn [forEach snd List.length]. lia.
  - rewrite forEach_cons. cbn [snd List.length]. rewrite IH, body_draws. lia.
Qed.

Lemma forEach_camLocalPos data i0 w :
  camLocalPos (snd (forEach body data i0 w)) = camLocalPos w.
Proof.
  revert i0 w. induction data as [|d rest IH]; intros i0 w; [reflexivity|].
  rewrite forEach_cons. cbn [snd]. rewrite IH, body_camLocalPos. reflexivity.
Qed.

(** Particle [j] is moved by the draw number [draws w + j]. *)
Lemma forEach_nth data i0 w j d :
  nth_error data j = Some d ->
  nth_error (fst (forEach body data i0 w)) j =
  Some (set_currentPos
          (Vector3.lerp (currentPos d)
             (desiredPosition aq isExploded state w2l (camLocalPos w) d (i0 + j))
             (lerpFactor delta speed (random (draws w + j)%nat)))
          d).
Proof.
  revert i0 w j. induction data as [|d0 rest IH]; intros i0 w j H.
  - destruct j; discriminate.
  - rewrite forEach_cons. cbn [fst].
    destruct j as [|j]; cbn [nth_error] in *.
    + injection H as <-. rewrite body_fst. unfold moved.
      rewrite !Nat.add_0_r. reflexivity.
    + rewrite (IH _ _ j H), body_draws, body_camLocalPos.
      replace (S i0 + j)%nat with (i0 + S j)%nat by lia.
      replace (S (draws w) + j)%nat with (draws w + S j)%nat by lia.
      reflexivity.
Qed.

(** A colour written below index [i0] is still in the buffer when the loop
    has run from [i0] on. *)
Lemma forEach_keeps_color data i0 w mesh buf k c :
  (k < i0)%nat ->
  meshRef_current w = Some mesh ->
  instanceColor mesh = Some buf ->
  buf k = Some c ->
  exists mesh' buf',
    meshRef_current (snd (forEach body data i0 w)) = Some mesh' /\
    instanceColor mesh' = Some buf' /\
    buf' k = Some c.
Proof.
  revert i0 w mesh buf.
  induction data as [|d rest IH]; intros i0 w mesh buf Hk Hm Hb Hc.
  - cbn [forEach snd]. eauto.
  - rewrite forEach_cons. cbn [snd].
    destruct (body_mesh d i0 w) as [m Hm'].
    rewrite Hm in Hm'. cbn [option_map] in Hm'.
    eapply IH; [lia | exact Hm' | unfold setColorAt; cbn [instanceColor]; reflexivity |].
    cbn beta. destruct (Nat.eqb_spec k i0); [lia|].
    unfold setMatrixAt. cbn [instanceColor]. rewrite Hb. assumption.
Qed.

Lemma forEach_color data i0 w mesh j d :
  nth_error data j = Some d ->
  meshRef_current w = Some mesh ->
  exists mesh' buf,
    meshRef_current (snd (forEach body data i0 w)) = Some mesh' /\
    instanceColor mesh' = Some buf /\
    buf (i0 + j)%nat = Some (Color.multiplyScalar (color d) (intensity time d)).
Proof.
  revert i0 w mesh j. induction data as [|d0 rest IH]; intros i0 w mesh j H Hm.
  - destruct j; discriminate.
  - rewrite forEach_cons. cbn [snd].
    destruct (body_mesh d0 i0 w) as [m Hm'].
    rewrite Hm in Hm'. cbn [option_map] in Hm'.
    destruct j as [|j]; cbn [nth_error] in *.
    + injection H as <-. rewrite Nat.add_0_r.
      eapply forEach_keeps_color;
        [lia | exact Hm' | unfold setColorAt; cbn [instanceColor]; reflexivity |].
      cbn beta. rewrite Nat.eqb_refl. reflexivity.
    + replace (i0 + S j)%nat with (S i0 + j)%nat by lia.
      eapply IH; eassumption.
Qed.

Lemma forEach_descriptor data i0 w :
  map descriptor (fst (forEach body data i0 w)) = map descriptor data.
Proof.
  revert i0 w. induction data as [|d rest IH]; intros i0 w; [reflexivity|].
  rewrite forEach_cons. cbn [fst map]. rewrite IH, body_fst. reflexivity.
Qed.

Lemma forEach_mounted data i0 w mesh :
  meshRef_current w = Some mesh ->
  exists mesh', meshRef_current (snd (forEach body data i0 w)) = Some mesh'.
Proof.
  revert i0 w mesh. induction data as [|d rest IH]; intros i0 w mesh Hm.
  - cbn [forEach snd]. eauto.
  - rewrite forEach_cons. cbn [snd].
    destruct (body_mesh d i0 w) as [m Hm'].
    rewrite Hm in Hm'. cbn [option_map] in Hm'.
    eapply IH; exact Hm'.
Qed.

End Frame.

Section FrameCallback.

Variable random : RandomSource.
Variable aq : Vector3.t -> Quaternion -> Vector3.t.

Lemma useFrame_unmounted b state delta w2l data w :
  meshRef_current w = None ->
  HeartParticles_useFrame random aq b state delta w2l data w = (data, w).
Proof. intros H. unfold HeartParticles_useFrame. rewrite H. reflexivity. Qed.

Lemma useFrame_mounted b state delta w2l data w mesh :
  meshRef_current w = Some mesh ->
  HeartParticles_useFrame random aq b state delta w2l data w =
  let r :=
    forEach (forEach_body random aq b state delta w2l (if b then 3 else 6)
                          (clock_elapsedTime state))
            data 0
            (set_camLocalPos (w2l (camera_position state)) w) in
  (fst r, on_mesh markNeedsUpdate (snd r)).
Proof.
  intros H. unfold HeartParticles_useFrame. rewrite H. cbv zeta.
  change (set_camLocalPos
            (w2l (camLocalPos (set_camLocalPos (camera_position state) w)))
            (set_camLocalPos (camera_position state) w))
    with (set_camLocalPos (w2l (camera_position state)) w).
  match goal with |- context [forEach ?f ?l ?i ?x] => destruct (forEach f l i x) end.
  reflexivity.
Qed.

Lemma useFrame_nth b state delta w2l data w mesh j d :
  meshRef_current w = Some mesh ->
  nth_error data j = Some d ->
  nth_error (fst (HeartParticles_useFrame random aq b state delta w2l data w)) j =
  Some (movedParticle random aq b state delta w2l w d j).
Proof.
  intros Hm Hd. rewrite (useFrame_mounted _ _ _ _ _ _ _ Hm). cbn [fst].
  erewrite forEach_nth by eassumption. reflexivity.
Qed.

Lemma useFrame_descriptor b state delta w2l data w :
  map descriptor (fst (HeartParticles_useFrame random aq b state delta w2l data w)) =
  map descriptor data.
Proof.
  destruct (meshRef_current w) as [mesh|] eqn:Hm.
  - rewrite (useFrame_mounted _ _ _ _ _ _ _ Hm). cbn [fst].
    apply forEach_descriptor.
  - rewrite useFrame_unmounted by assumption. reflexivity.
Qed.

Lemma useFrame_stays_mounted b state delta w2l data w mesh :
  meshRef_current w = Some mesh ->
  exists mesh',
    meshRef_current (snd (HeartParticles_useFrame random aq b state delta w2l data w)) =
    Some mesh'.
Proof.
  intros Hm. rewrite (useFrame_mounted _ _ _ _ _ _ _ Hm). cbn [snd].
  edestruct forEach_mounted as [mesh' Hm'];
    [|unfold on_mesh; cbn [meshRef_current]; rewrite Hm'; cbn [option_map]; eauto].
  cbn [set_camLocalPos meshRef_current]. exact Hm.
Qed.

Lemma useFrame_color b state delta w2l data w mesh j d :
  meshRef_current w = Some mesh ->
  nth_error data j = Some d ->
  exists mesh' buf,
    meshRef_current (snd (HeartParticles_useFrame random aq b state delta w2l data w)) =
    Some mesh' /\
    instanceColor mesh' = Some buf /\
    buf j = Some (Color.multiplyScalar (color d) (intensity (clock_elapsedTime state) d)).
Proof.
  intros Hm Hd. rewrite (useFrame_mounted _ _ _ _ _ _ _ Hm). cbn [snd].
  edestruct (forEach_color random aq b state delta w2l (if b then 3 else 6)
               data 0 (set_camLocalPos (w2l (camera_position state)) w) mesh j d)
    as (mesh' & buf & H1 & H2 & H3); [assumption | exact Hm |].
  exists (markNeedsUpdate mesh'), buf.
  unfold on_mesh. cbn [meshRef_current]. rewrite H1. cbn [option_map].
  repeat split; assumption.
Qed.

End FrameCallback.

Section SceneSteps.

Variable random : RandomSource.
Variable aq : Vector3.t -> Quaternion -> Vector3.t.

Lemma step_frame state delta w2l s :
  step random aq (frame state delta w2l) s =
  let r := HeartParticles_useFrame random aq (isExploded (app s)) state delta w2l
                                   (data s) (world s) in
  mkScene (app s)
          (Rig_useFrame (cameraEnabled (app s)) (handPos (app s)) state
                        (group_current s))
          (fst r) (snd r).
Proof.
  unfold step. destruct (HeartParticles_useFrame _ _ _ _ _ _ _ _). reflexivity.
Qed.

Lemma step_descriptor e s :
  map descriptor (data (step random aq e s)) = map descriptor (data s).
Proof.
  destruct e as [i | state delta w2l]; [reflexivity|].
  rewrite step_frame. cbn [data]. apply useFrame_descriptor.
Qed.

Lemma run_cons e es s :
  run random aq (e :: es) s = run random aq es (step random aq e s).
Proof. reflexivity. Qed.

Lemma run_descriptor es s :
  map descriptor (data (run random aq es s)) = map descriptor (data s).
Proof.
  revert s. induction es as [|e es IH]; intros s; [reflexivity|].
  rewrite run_cons, IH. apply step_descriptor.
Qed.

(** C3: in a frame every particle moves from its position to the linear
    interpolation toward the desired position of the frame, by the factor
    [delta * speed * (0.8 + r * 0.4)], where [r] is a draw of
    [Math.random], in [0, 1), and the speed is 3 when exploded and 6 when
    gathered: each coordinate [c] of the position becomes
    [c + (target - c) * factor]. *)
Theorem C3_frame_interpolates
    (b : bool) (state : RootState) (delta : R) (w2l : Vector3.t -> Vector3.t)
    (particles : list Particle) (w : World) (mesh : InstancedMesh)
    (j : nat) (d : Particle) :
  meshRef_current w = Some mesh ->
  nth_error particles j = Some d ->
  exists (r : R) (d' : Particle),
    nth_error
      (fst (HeartParticles_useFrame random aq b state delta w2l particles w)) j =
    Some d' /\
    0 <= r < 1 /\
    let factor := delta * (if b then 3 else 6) * (0.8 + r * 0.4) in
    let old := currentPos d in
    let target :=
      desiredPosition aq b state w2l (w2l (camera_position state)) d j in
    currentPos d' = Vector3.lerp old target factor /\
    Vector3.x (currentPos d') =
      Vector3.x old + (Vector3.x target - Vector3.x old) * factor /\
    Vector3.y (currentPos d') =
      Vector3.y old + (Vector3.y target - Vector3.y old) * factor /\
    Vector3.z (currentPos d') =
      Vector3.z old + (Vector3.z target - Vector3.z old) * factor.
Proof.
  intros Hm Hd.
  exists (draw_val (random (draws w + j)%nat)), (movedParticle random aq b state delta w2l w d j).
  split; [eapply useFrame_nth; eassumption|].
  split; [apply draw_range|].
  cbv zeta. unfold movedParticle, lerpFactor, Vector3.lerp.
  cbn [currentPos set_currentPos Vector3.x Vector3.y Vector3.z].
  repeat split; reflexivity.
Qed.

(** C10: the colour written for a particle in a frame is its base colour
    times a factor [k] in [1.5, 3.5], channel by channel; the factor is 1.5
    when the twinkle [sin (5 t + phase)] is at most 0.5, and
    [1.5 + 2 * twinkle] above it.  It exceeds 1, so every positive channel
    is written strictly brighter than its base. *)
Theorem C10_color_factor_bounds
    (b : bool) (state : RootState) (delta : R) (w2l : Vector3.t -> Vector3.t)
    (particles : list Particle) (w : World) (mesh : InstancedMesh)
    (j : nat) (d : Particle) :
  meshRef_current w = Some mesh ->
  nth_error particles j = Some d ->
  let twinkle := sin (clock_elapsedTime state * 5 + phase d) in
  exists (k : R) (mesh' : InstancedMesh) (buffer : nat -> option Color.t)
         (written : Color.t),
    meshRef_current
      (snd (HeartParticles_useFrame random aq b state delta w2l particles w)) =
    Some mesh' /\
    instanceColor mesh' = Some buffer /\
    buffer j = Some written /\
    Color.r written = Color.r (color d) * k /\
    Color.g written = Color.g (color d) * k /\
    Color.b written = Color.b (color d) * k /\
    1.5 <= k <= 3.5 /\
    (twinkle <= 0.5 -> k = 1.5) /\
    (twinkle > 0.5 -> k = 1.5 + twinkle * 2) /\
    (0 < Color.r (color d) -> Color.r (color d) < Color.r written) /\
    (0 < Color.g (color d) -> Color.g (color d) < Color.g written) /\
    (0 < Color.b (color d) -> Color.b (color d) < Color.b written).
Proof.
  intros Hm Hd twinkle.
  destruct (useFrame_color random aq b state delta w2l particles w mesh j d Hm Hd)
    as (mesh' & buffer & H1 & H2 & H3).
  exists (intensity (clock_elapsedTime state) d), mesh', buffer,
         (Color.multiplyScalar (color d) (intensity (clock_elapsedTime state) d)).
  split; [assumption|]. split; [assumption|]. split; [assumption|].
  unfold Color.multiplyScalar. cbn [Color.r Color.g Color.b].
  split; [reflexivity|]. split; [reflexivity|]. split; [reflexivity|].
  unfold intensity. fold twinkle.
  pose proof (SIN_bound (clock_elapsedTime state * 5 + phase d)) as Hs.
  fold twinkle in Hs.
  destruct (gtb twinkle 0.5) eqn:Hg;
    [apply gtb_true_iff in Hg | apply gtb_false_iff in Hg].
  - split; [lra|]. split; [intros; lra|]. split; [intros; lra|].
    split; [|split]; intros Hc; nra.
  - split; [lra|]. split; [intros; lra|]. split; [intros; lra|].
    split; [|split]; intros Hc; nra.
Qed.

(** C6: whatever inputs and frames occur, the fields of a particle other
    than [currentPos] keep the values they were created with.  An input,
    which is what changes the display state, leaves the particles,
    [currentPos] included, as they are; a frame replaces [currentPos] by
    its interpolation toward the desired position (and leaves it when the
    mesh is not mounted). *)
Theorem C6_descriptor_never_changes (es : list Event) (s : Scene) :
  map descriptor (data (run random aq es s)) = map descriptor (data s) /\
  (forall i : Input, data (step random aq (input i) s) = data s) /\
  (forall state delta w2l j d,
     nth_error (data s) j = Some d ->
     exists d',
       nth_error (data (step random aq (frame state delta w2l) s)) j = Some d' /\
       descriptor d' = descriptor d /\
       currentPos d' =
       match meshRef_current (world s) with
       | Some _ =>
           Vector3.lerp (currentPos d)
             (desiredPosition aq (isExploded (app s)) state w2l
                              (w2l (camera_position state)) d j)
             (lerpFactor delta (if isExploded (app s) then 3 else 6)
                         (random (draws (world s) + j)%nat))
       | None => currentPos d
       end).
Proof.
  split; [apply run_descriptor|]. split; [reflexivity|].
  intros state delta w2l j d Hd. rewrite step_frame. cbn [data].
  destruct (meshRef_current (world s)) as [mesh|] eqn:Hm.
  - exists (movedParticle random aq (isExploded (app s)) state delta w2l (world s) d j).
    split; [eapply useFrame_nth; eassumption|].
    split; reflexivity.
  - rewrite useFrame_unmounted by assumption. cbn [fst].
    exists d. auto.
Qed.

End SceneSteps.

Lemma C3_frame_interpolates_witness :
  exists (r : R) (d' : Particle),
    nth_error
      (fst (HeartParticles_useFrame halves identityQuaternion false (sample_state 0)
              (1 / 60) (fun v => v) [sample_particle scatter] sample_world)) 0 =
    Some d' /\
    0 <= r < 1 /\
    Vector3.x (currentPos d') = 0 + (1 - 0) * (1 / 60 * 6 * (0.8 + r * 0.4)) /\
    Vector3.y (currentPos d') = 0 + (0 - 0) * (1 / 60 * 6 * (0.8 + r * 0.4)) /\
    Vector3.z (currentPos d') = 0 + (0 - 0) * (1 / 60 * 6 * (0.8 + r * 0.4)).
Proof.
  destruct (C3_frame_interpolates halves identityQuaternion false (sample_state 0)
              (1 / 60) (fun v => v) [sample_particle scatter] sample_world
              sample_mesh 0 (sample_particle scatter) eq_refl eq_refl)
    as (r & d' & H1 & H2 & _ & Hx & Hy & Hz).
  exists r, d'. repeat split; try assumption; apply H2.
Defined.

Lemma C10_color_factor_bounds_witness :
  exists (k : R) (mesh' : InstancedMesh) (buffer : nat -> option Color.t)
         (written : Color.t),
    meshRef_current
      (snd (HeartParticles_useFrame halves identityQuaternion true (sample_state 0)
              (1 / 60) (fun v => v) [sample_particle front] sample_world)) =
    Some mesh' /\
    instanceColor mesh' = Some buffer /\
    buffer 0%nat = Some written /\
    Color.r written = 1 * k /\
    1.5 <= k <= 3.5 /\
    1 < Color.r written.
Proof.
  destruct (C10_color_factor_bounds halves identityQuaternion true (sample_state 0)
              (1 / 60) (fun v => v) [sample_particle front] sample_world
              sample_mesh 0 (sample_particle front) eq_refl eq_refl)
    as (k & mesh' & buffer & written & H1 & H2 & H3 & Hr & _ & _ & Hk & _ & _ & Hbr & _).
  exists k, mesh', buffer, written.
  repeat split; try assumption; try apply Hk.
  apply Hbr. simpl. lra.
Defined.

Lemma C6_descriptor_never_changes_witness :
  map descriptor
      (data (run halves identityQuaternion
                 [frame (sample_state 0) (1 / 60) (fun v => v);
                  input PointerDown;
                  frame (sample_state (1 / 60)) (1 / 60) (fun v => v);
                  input PointerUp]
                 (sample_scene true false surround))) =
  map descriptor (data (sample_scene true false surround)).
Proof.
  apply (C6_descriptor_never_changes halves identityQuaternion
           [frame (sample_state 0) (1 / 60) (fun v => v);
            input PointerDown;
            frame (sample_state (1 / 60)) (1 / 60) (fun v => v);
            input PointerUp]
           (sample_scene true false surround)).
Defined.

(** ** Convergence to the home position *)

Lemma sum_squares_nonneg a b c : 0 <= a * a + b * b + c * c.
Proof. nra. Qed.

Lemma distanceTo_nonneg p q : 0 <= Vector3.distanceTo p q.
Proof. unfold Vector3.distanceTo. cbv zeta. apply sqrt_pos. Qed.

(** A step of interpolation toward [h] scales the distance to [h]. *)
Lemma distanceTo_lerp p h a :
  Vector3.distanceTo (Vector3.lerp p h a) h = Rabs (1 - a) * Vector3.distanceTo p h.
Proof.
  unfold Vector3.distanceTo, Vector3.lerp. cbn [Vector3.x Vector3.y Vector3.z]. cbv zeta.
  set (dx := Vector3.x p - Vector3.x h).
  set (dy := Vector3.y p - Vector3.y h).
  set (dz := Vector3.z p - Vector3.z h).
  replace (Vector3.x p + (Vector3.x h - Vector3.x p) * a - Vector3.x h)
    with ((1 - a) * dx) by (unfold dx; ring).
  replace (Vector3.y p + (Vector3.y h - Vector3.y p) * a - Vector3.y h)
    with ((1 - a) * dy) by (unfold dy; ring).
  replace (Vector3.z p + (Vector3.z h - Vector3.z p) * a - Vector3.z h)
    with ((1 - a) * dz) by (unfold dz; ring).
  replace ((1 - a) * dx * ((1 - a) * dx) + (1 - a) * dy * ((1 - a) * dy) +
           (1 - a) * dz * ((1 - a) * dz))
    with ((1 - a)² * (dx * dx + dy * dy + dz * dz)) by (unfold Rsqr; ring).
  rewrite sqrt_mult by (apply Rle_0_sqr || apply sum_squares_nonneg).
  rewrite sqrt_Rsqr_abs. reflexivity.
Qed.

Section Convergence.

Variable random : RandomSource.
Variable aq : Vector3.t -> Quaternion -> Vector3.t.
Variables lo hi : R.
Hypothesis lo_pos : 0 < lo.
Hypothesis hi_lt_1 : hi < 1.

Lemma gathered_step_contracts e s j d mesh :
  gatherFrame lo hi e ->
  isExploded (app s) = false ->
  meshRef_current (world s) = Some mesh ->
  nth_error (data s) j = Some d ->
  let s' := step random aq e s in
  isExploded (app s') = false /\
  (exists mesh', meshRef_current (world s') = Some mesh') /\
  exists d',
    nth_error (data s') j = Some d' /\
    home d' = home d /\
    Vector3.distanceTo (currentPos d') (home d) <=
    (1 - lo) * Vector3.distanceTo (currentPos d) (home d).
Proof.
  intros He Hb Hm Hd s'. subst s'.
  destruct e as [i | state delta w2l]; [contradiction|].
  rewrite step_frame. cbn [app world data]. rewrite Hb.
  split; [reflexivity|].
  split; [eapply useFrame_stays_mounted; eassumption|].
  exists (movedParticle random aq false state delta w2l (world s) d j).
  split; [eapply useFrame_nth; eassumption|].
  split; [reflexivity|].
  unfold movedParticle, set_currentPos, desiredPosition. cbn [currentPos].
  rewrite distanceTo_lerp.
  specialize (He (random (draws (world s) + j)%nat)).
  rewrite Rabs_pos_eq by lra.
  apply Rmult_le_compat_r; [apply distanceTo_nonneg | lra].
Qed.

Lemma gathered_run_contracts es : forall s j d mesh,
  Forall (gatherFrame lo hi) es ->
  isExploded (app s) = false ->
  meshRef_current (world s) = Some mesh ->
  nth_error (data s) j = Some d ->
  exists d',
    nth_error (data (run random aq es s)) j = Some d' /\
    home d' = home d /\
    Vector3.distanceTo (currentPos d') (home d) <=
    (1 - lo) ^ List.length es * Vector3.distanceTo (currentPos d) (home d).
Proof.
  induction es as [|e es IH]; intros s j d mesh Hes Hb Hm Hd.
  - exists d. cbn [run fold_left List.length pow]. repeat split; auto. lra.
  - inversion Hes as [|e' es' He Hes']; subst.
    destruct (gathered_step_contracts e s j d mesh He Hb Hm Hd)
      as (Hb' & (mesh' & Hm') & d1 & Hd1 & Hh1 & Hdist1).
    destruct (IH _ _ _ _ Hes' Hb' Hm' Hd1) as (d' & Hd' & Hh' & Hdist').
    exists d'. rewrite run_cons.
    split; [assumption|]. split; [congruence|].
    rewrite Hh1 in Hdist'.
    assert (Hlo : lo < 1).
    { destruct e as [i | state delta w2l]; [contradiction|].
      specialize (He draw_half). lra. }
    assert (Hq : 0 <= (1 - lo) ^ List.length es) by (apply pow_le; lra).
    cbn [List.length pow].
    apply Rle_trans with (1 := Hdist').
    replace ((1 - lo) * (1 - lo) ^ List.length es *
             Vector3.distanceTo (currentPos d) (home d))
      with ((1 - lo) ^ List.length es *
            ((1 - lo) * Vector3.distanceTo (currentPos d) (home d))) by ring.
    apply Rmult_le_compat_l; assumption.
Qed.

(** C5: take any starting position, any home and any [eps > 0].  There is
    a number of frames [N] such that, when the state stays gathered for
    at least [N] frames whose interpolation factors lie in [[lo, hi]]
    with [0 < lo] and [hi < 1], the particle is within [eps] of its home
    after them, however many more such frames follow. *)
Theorem C5_gathered_converges (p0 h : Vector3.t) (eps : R) :
  0 < eps ->
  exists N : nat,
    forall (es : list Event) (s : Scene) (j : nat) (d : Particle) (mesh : InstancedMesh),
      (N <= List.length es)%nat ->
      Forall (gatherFrame lo hi) es ->
      isExploded (app s) = false ->
      meshRef_current (world s) = Some mesh ->
      nth_error (data s) j = Some d ->
      currentPos d = p0 ->
      home d = h ->
      exists d',
        nth_error (data (run random aq es s)) j = Some d' /\
        home d' = h /\
        Vector3.distanceTo (currentPos d') h < eps.
Proof.
  intros Heps.
  destruct (Rlt_dec lo 1) as [Hlo | Hlo].
  - set (D := Vector3.distanceTo p0 h).
    assert (HD : 0 <= D) by apply distanceTo_nonneg.
    destruct (pow_lt_1_zero (1 - lo)) with (y := eps / (D + 1)) as [N HN].
    { rewrite Rabs_pos_eq; lra. }
    { apply Rdiv_lt_0_compat; lra. }
    exists N. intros es s j d mesh Hlen Hes Hb Hm Hd Hp Hh.
    destruct (gathered_run_contracts es s j d mesh Hes Hb Hm Hd)
      as (d' & Hd' & Hh' & Hdist).
    exists d'. split; [assumption|]. split; [congruence|].
    rewrite Hh, Hp in Hdist. fold D in Hdist.
    specialize (HN (List.length es) Hlen).
    rewrite Rabs_pos_eq in HN by (apply pow_le; lra).
    apply Rle_lt_trans with (1 := Hdist).
    apply Rle_lt_trans with (eps / (D + 1) * D).
    + apply Rmult_le_compat_r; lra.
    + assert (Hr : D * / (D + 1) < 1).
      { apply (Rmult_lt_reg_r (D + 1)); [lra|].
        rewrite Rmult_assoc, Rinv_l by lra. lra. }
      replace (eps / (D + 1) * D) with (eps * (D * / (D + 1)))
        by (unfold Rdiv; ring).
      rewrite <- (Rmult_1_r eps) at 2.
      apply Rmult_lt_compat_l; assumption.
  - exists 1%nat. intros es s j d mesh Hlen Hes.
    destruct es as [|e es]; [cbn in Hlen; lia|].
    inversion Hes as [|e' es' He Hes']; subst.
    destruct e as [i | state delta w2l]; [contradiction|].
    specialize (He draw_half). lra.
Qed.

End Convergence.

Lemma gatherFrame_60Hz state w2l : gatherFrame 0.08 0.12 (frame state (1 / 60) w2l).
Proof.
  intros r. pose proof (draw_range r). unfold lerpFactor. lra.
Qed.

Lemma C5_gathered_converges_witness :
  gatherFrame 0.08 0.12 (frame (sample_state 0) (1 / 60) (fun v => v)) /\
  exists N : nat,
    forall (es : list Event) (s : Scene) (j : nat) (d : Particle) (mesh : InstancedMesh),
      (N <= List.length es)%nat ->
      Forall (gatherFrame 0.08 0.12) es ->
      isExploded (app s) = false ->
      meshRef_current (world s) = Some mesh ->
      nth_error (data s) j = Some d ->
      currentPos d = Vector3.zero ->
      home d = Vector3.mk 1 0 0 ->
      exists d',
        nth_error (data (run halves identityQuaternion es s)) j = Some d' /\
        home d' = Vector3.mk 1 0 0 /\
        Vector3.distanceTo (currentPos d') (Vector3.mk 1 0 0) < 0.01.
Proof.
  split; [apply gatherFrame_60Hz|].
  apply (C5_gathered_converges halves identityQuaternion 0.08 0.12); lra.
Defined.

(** ** Subdividing a frame *)

Lemma Vector3_eq p q :
  Vector3.x p = Vector3.x q -> Vector3.y p = Vector3.y q ->
  Vector3.z p = Vector3.z q -> p = q.
Proof. destruct p, q; simpl; intros; subst; reflexivity. Qed.

(** Two steps toward the same target are one step, by the composed factor. *)
Lemma lerp_lerp p t a b :
  Vector3.lerp (Vector3.lerp p t a) t b = Vector3.lerp p t (a + b - a * b).
Proof. unfold Vector3.lerp; apply Vector3_eq; simpl; ring. Qed.

Lemma lerp_same_iff p t a b :
  Vector3.lerp p t a = Vector3.lerp p t b <-> a = b \/ p = t.
Proof.
  split.
  - intros H. destruct (Req_dec_T a b) as [E | E]; [left; assumption | right].
    unfold Vector3.lerp in H. injection H as Hx Hy Hz.
    apply Vector3_eq.
    + assert (Hd : (Vector3.x t - Vector3.x p) * (a - b) = 0) by lra.
      apply Rmult_integral in Hd as [Hd | Hd]; lra.
    + assert (Hd : (Vector3.y t - Vector3.y p) * (a - b) = 0) by lra.
      apply Rmult_integral in Hd as [Hd | Hd]; lra.
    + assert (Hd : (Vector3.z t - Vector3.z p) * (a - b) = 0) by lra.
      apply Rmult_integral in Hd as [Hd | Hd]; lra.
  - intros [-> | ->]; [reflexivity|].
    unfold Vector3.lerp; apply Vector3_eq; simpl; ring.
Qed.

Lemma lerpFactor_half delta speed r :
  lerpFactor (delta / 2) speed r = lerpFactor delta speed r / 2.
Proof. unfold lerpFactor. lra. Qed.

Lemma desiredPosition_moved aq b state w2l c p d j :
  desiredPosition aq b state w2l c (set_currentPos p d) j =
  desiredPosition aq b state w2l c d j.
Proof. reflexivity. Qed.

Section Subdivision.

Variable random : RandomSource.
Variable aq : Vector3.t -> Quaternion -> Vector3.t.

Lemma useFrame_draws b state delta w2l particles w mesh :
  meshRef_current w = Some mesh ->
  draws (snd (HeartParticles_useFrame random aq b state delta w2l particles w)) =
  (draws w + List.length particles)%nat.
Proof.
  intros Hm. rewrite (useFrame_mounted _ _ _ _ _ _ _ _ _ Hm). cbn [snd].
  unfold on_mesh. cbn [draws]. rewrite forEach_draws. reflexivity.
Qed.

(** C8, as the code has it: the factor is proportional to [delta], but
    the step does not commute with subdividing [delta].  With the same
    target and the same jitter draw, one frame of [delta] interpolates by
    [a = delta * speed * (0.8 + r * 0.4)], and two frames of [delta / 2]
    interpolate by [a - a * a / 4]; the two results agree only if [a = 0]
    or the particle is at its target already. *)
Theorem C8_half_frames_compose
    (b : bool) (state : RootState) (delta : R) (w2l : Vector3.t -> Vector3.t)
    (particles : list Particle) (w : World) (mesh : InstancedMesh)
    (j : nat) (d : Particle) :
  meshRef_current w = Some mesh ->
  nth_error particles j = Some d ->
  random (draws w + List.length particles + j)%nat = random (draws w + j)%nat ->
  let a := lerpFactor delta (if b then 3 else 6) (random (draws w + j)%nat) in
  let target := desiredPosition aq b state w2l (w2l (camera_position state)) d j in
  let one := HeartParticles_useFrame random aq b state delta w2l particles w in
  let half := HeartParticles_useFrame random aq b state (delta / 2) w2l particles w in
  let two := HeartParticles_useFrame random aq b state (delta / 2) w2l
                                     (fst half) (snd half) in
  exists d1 d2 : Particle,
    nth_error (fst one) j = Some d1 /\
    nth_error (fst two) j = Some d2 /\
    currentPos d1 = Vector3.lerp (currentPos d) target a /\
    currentPos d2 = Vector3.lerp (currentPos d) target (a - a * a / 4) /\
    (currentPos d2 = currentPos d1 <-> a = 0 \/ currentPos d = target).
Proof.
  intros Hm Hd Hr a target one half two.
  destruct (useFrame_stays_mounted random aq b state (delta / 2) w2l particles w mesh Hm)
    as [mesh' Hm'].
  pose proof (useFrame_nth random aq b state (delta / 2) w2l particles w mesh j d Hm Hd)
    as Hhalf.
  pose proof (useFrame_nth random aq b state (delta / 2) w2l (fst half) (snd half)
                           mesh' j _ Hm' Hhalf) as Htwo.
  exists (movedParticle random aq b state delta w2l w d j).
  eexists. split; [eapply useFrame_nth; eassumption|].
  split; [exact Htwo|].
  assert (H2 : currentPos
                 (movedParticle random aq b state (delta / 2) w2l (snd half)
                    (movedParticle random aq b state (delta / 2) w2l w d j) j) =
               Vector3.lerp (currentPos d) target (a - a * a / 4)).
  { unfold movedParticle at 1. cbn [currentPos set_currentPos].
    unfold half. rewrite (useFrame_draws _ _ _ _ _ _ _ Hm), Hr.
    unfold movedParticle. rewrite desiredPosition_moved.
    cbn [currentPos set_currentPos].
    rewrite !lerpFactor_half. fold a. fold target.
    rewrite lerp_lerp. f_equal. field. }
  split; [reflexivity|]. split; [exact H2|].
  rewrite H2. unfold movedParticle. cbn [currentPos set_currentPos].
  fold a. fold target. rewrite lerp_same_iff.
  split; (intros [H | H]; [left | right; assumption]); nra.
Qed.

End Subdivision.

Lemma C8_half_frames_compose_witness :
  exists d1 d2 : Particle,
    nth_error
      (fst (HeartParticles_useFrame halves identityQuaternion false (sample_state 0)
              0.1 (fun v => v) [sample_particle scatter] sample_world)) 0 = Some d1 /\
    nth_error
      (fst (HeartParticles_useFrame halves identityQuaternion false (sample_state 0)
              (0.1 / 2) (fun v => v)
              (fst (HeartParticles_useFrame halves identityQuaternion false
                      (sample_state 0) (0.1 / 2) (fun v => v)
                      [sample_particle scatter] sample_world))
              (snd (HeartParticles_useFrame halves identityQuaternion false
                      (sample_state 0) (0.1 / 2) (fun v => v)
                      [sample_particle scatter] sample_world)))) 0 = Some d2 /\
    Vector3.x (currentPos d1) = 0.6 /\
    Vector3.x (currentPos d2) = 0.51.
Proof.
  destruct (C8_half_frames_compose halves identityQuaternion false (sample_state 0)
              0.1 (fun v => v) [sample_particle scatter] sample_world sample_mesh
              0 (sample_particle scatter) eq_refl eq_refl eq_refl)
    as (d1 & d2 & H1 & H2 & H3 & H4 & _).
  exists d1, d2. split; [exact H1|]. split; [exact H2|].
  rewrite H3, H4. unfold lerpFactor. simpl. lra.
Defined.

(** C8 does not hold as written: from the same state, one gathered frame of 0.1 s
    and two gathered frames of 0.05 s, all with the jitter draw 1/2, leave
    the particle at different positions. *)
Lemma C8_one_frame_differs_from_two_half_frames :
  let one :=
    run halves identityQuaternion
        [frame (sample_state 0.1) 0.1 (fun v => v)]
        (sample_scene false false scatter) in
  let two :=
    run halves identityQuaternion
        [frame (sample_state 0.05) 0.05 (fun v => v);
         frame (sample_state 0.1) 0.05 (fun v => v)]
        (sample_scene false false scatter) in
  exists d1 d2 : Particle,
    nth_error (data one) 0 = Some d1 /\
    nth_error (data two) 0 = Some d2 /\
    Vector3.x (currentPos d1) = 0.6 /\
    Vector3.x (currentPos d2) = 0.51 /\
    currentPos d1 <> currentPos d2.
Proof.
  intros one two. subst one two.
  rewrite !run_cons, !step_frame. cbn [run fold_left data app world isExploded isHandOpen sample_scene].
  set (w := sample_world).
  set (d := sample_particle scatter).
  assert (Hm : meshRef_current w = Some sample_mesh) by reflexivity.
  assert (Hd : nth_error [d] 0 = Some d) by reflexivity.
  destruct (useFrame_stays_mounted halves identityQuaternion false (sample_state 0.05)
              0.05 (fun v => v) [d] w sample_mesh Hm) as [mesh' Hm'].
  pose proof (useFrame_nth halves identityQuaternion false (sample_state 0.1) 0.1
                (fun v => v) [d] w sample_mesh 0 d Hm Hd) as H1.
  pose proof (useFrame_nth halves identityQuaternion false (sample_state 0.05) 0.05
                (fun v => v) [d] w sample_mesh 0 d Hm Hd) as Hh.
  pose proof (useFrame_nth halves identityQuaternion false (sample_state 0.1) 0.05
                (fun v => v) _ _ mesh' 0 _ Hm' Hh) as H2.
  eexists. eexists. split; [exact H1|]. split; [exact H2|].
  assert (X1 : Vector3.x (currentPos
                 (movedParticle halves identityQuaternion false (sample_state 0.1) 0.1
                    (fun v => v) w d 0)) = 0.6).
  { unfold movedParticle, lerpFactor. simpl. lra. }
  split; [exact X1|].
  match goal with |- ?A = _ /\ _ => assert (X2 : A = 0.51) end.
  { unfold movedParticle, lerpFactor. simpl. lra. }
  split; [exact X2|].
  intros E. rewrite E in X1. rewrite X1 in X2. lra.
Qed.

(** ** Creation of a particle *)

Lemma length_zero_iff v : Vector3.length v = 0 <-> v = Vector3.zero.
Proof.
  unfold Vector3.length, Vector3.zero. split.
  - intros H. apply sqrt_eq_0 in H; [|apply sum_squares_nonneg].
    destruct v as [a b c]. cbn [Vector3.x Vector3.y Vector3.z] in H.
    assert (a = 0) by nra. assert (b = 0) by nra. assert (c = 0) by nra.
    subst. reflexivity.
  - intros ->. cbn [Vector3.x Vector3.y Vector3.z].
    replace (0 * 0 + 0 * 0 + 0 * 0) with 0 by ring. apply sqrt_0.
Qed.

Lemma normalize_unit v : v <> Vector3.zero -> Vector3.length (Vector3.normalize v) = 1.
Proof.
  intros Hv. unfold Vector3.normalize.
  destruct (Req_dec_T (Vector3.length v) 0) as [E | E];
    [apply length_zero_iff in E; contradiction|].
  assert (HL : 0 < Vector3.length v).
  { unfold Vector3.length in *. pose proof (sqrt_pos
      (Vector3.x v * Vector3.x v + Vector3.y v * Vector3.y v + Vector3.z v * Vector3.z v)).
    lra. }
  set (L := Vector3.length v) in *.
  unfold Vector3.length at 1, Vector3.divideScalar, Vector3.multiplyScalar.
  cbn [Vector3.x Vector3.y Vector3.z].
  replace (Vector3.x v * (1 / L) * (Vector3.x v * (1 / L)) +
           Vector3.y v * (1 / L) * (Vector3.y v * (1 / L)) +
           Vector3.z v * (1 / L) * (Vector3.z v * (1 / L)))
    with ((Vector3.x v * Vector3.x v + Vector3.y v * Vector3.y v +
           Vector3.z v * Vector3.z v) * (1 / L)²) by (unfold Rsqr; ring).
  rewrite sqrt_mult by (apply sum_squares_nonneg || apply Rle_0_sqr).
  rewrite sqrt_Rsqr_abs.
  change (sqrt (Vector3.x v * Vector3.x v + Vector3.y v * Vector3.y v +
                Vector3.z v * Vector3.z v)) with L.
  rewrite Rabs_pos_eq by (apply Rlt_le, Rdiv_lt_0_compat; lra).
  field. lra.
Qed.

Lemma normalize_zero : Vector3.normalize Vector3.zero = Vector3.zero.
Proof.
  unfold Vector3.normalize, Vector3.divideScalar, Vector3.multiplyScalar, Vector3.zero.
  cbn [Vector3.x Vector3.y Vector3.z].
  apply Vector3_eq; cbn [Vector3.x Vector3.y Vector3.z]; ring.
Qed.

Section Creation.

Variable random : RandomSource.
Variable THREE_Color : string -> Color.t.

Lemma createHome_draws n : snd (createHome random n) = (n + 4)%nat.
Proof.
  unfold createHome, bind, Math_random, ret.
  destruct (gtb (random n) 0.3); cbn [snd]; lia.
Qed.

Lemma createParticle_shape n :
  exists h c rs sc ph,
    fst (createParticle random THREE_Color n) =
    let '(t, o, f) := fst (createTarget random (random (n + 4)%nat) (n + 5)%nat) in
    mkParticle h t o f c rs sc h ph.
Proof.
  unfold createParticle, bind.
  pose proof (createHome_draws n) as Hn.
  destruct (createHome random n) as [h n']. cbn [snd] in Hn. subst n'.
  unfold Math_random.
  replace (S (n + 4)) with (n + 5)%nat by lia.
  destruct (createTarget random (random (n + 4)%nat) (n + 5)%nat) as [[[t o] f] n''].
  cbn [fst ret]. eauto 10.
Qed.

(** The type, the offset and the fixed target of the particle created
    from draw [n] on come from [createTarget], run on draw [n + 4]. *)
Lemma createParticle_target n :
  let d := fst (createParticle random THREE_Color n) in
  let tof := fst (createTarget random (random (n + 4)%nat) (n + 5)%nat) in
  type d = fst (fst tof) /\ offset d = snd (fst tof) /\ fixedTarget d = snd tof /\
  currentPos d = home d.
Proof.
  intros d tof. subst d tof.
  destruct (createParticle_shape n) as (h & c & rs & sc & ph & ->).
  destruct (fst (createTarget random (random (n + 4)%nat) (n + 5)%nat)) as [[t o] f].
  cbn. auto.
Qed.

Lemma createTarget_type u n :
  fst (fst (fst (createTarget random u n))) =
  if ltb u 0.116 then front else if ltb u 0.537 then surround else scatter.
Proof.
  unfold createTarget, bind, Math_random, ret.
  destruct (ltb u 0.116); [reflexivity|].
  destruct (ltb u 0.537); reflexivity.
Qed.

Lemma createTarget_scatter u n :
  0.537 <= u ->
  snd (fst (createTarget random u n)) =
  Vector3.add
    (Vector3.multiplyScalar
       (Vector3.normalize
          (Vector3.mk (random n - 0.5) (random (S n) - 0.5) (random (S (S n)) - 0.5)))
       (6 + random (S (S (S n))) * 16))
    (Vector3.mk 0 2 0).
Proof.
  intros Hu. unfold createTarget, bind, Math_random, ret.
  destruct (ltb u 0.116) eqn:E1; [apply ltb_true_iff in E1; lra|].
  destruct (ltb u 0.537) eqn:E2; [apply ltb_true_iff in E2; lra|].
  reflexivity.
Qed.

(** C4: the draw that chooses the type of a particle, the fifth of its
    creation, is in [0, 1), and the three intervals [0, 0.116),
    [0.116, 0.537) and [0.537, 1) decide the type: front, surround and
    scatter, each type exactly on its interval.  The intervals have the
    widths 0.116, 0.421 and 0.463. *)
Theorem C4_archetype_partition (n : nat) :
  let u := draw_val (random (n + 4)%nat) in
  let d := fst (createParticle random THREE_Color n) in
  0 <= u < 1 /\
  (u < 0.116 -> type d = front) /\
  (0.116 <= u < 0.537 -> type d = surround) /\
  (0.537 <= u < 1 -> type d = scatter) /\
  (type d = front <-> 0 <= u < 0.116) /\
  (type d = surround <-> 0.116 <= u < 0.537) /\
  (type d = scatter <-> 0.537 <= u < 1) /\
  0.116 - 0 = 0.116 /\ 0.537 - 0.116 = 0.421 /\ 1 - 0.537 = 0.463.
Proof.
  intros u d.
  pose proof (draw_range (random (n + 4)%nat)) as Hu. fold u in Hu.
  destruct (createParticle_target n) as (Ht & _). fold d in Ht.
  rewrite createTarget_type in Ht. fold u in Ht.
  split; [assumption|].
  destruct (ltb u 0.116) eqn:E1;
    [apply ltb_true_iff in E1 | apply ltb_false_iff in E1].
  - rewrite Ht. repeat split; intros; try lra; try discriminate.
  - destruct (ltb u 0.537) eqn:E2;
      [apply ltb_true_iff in E2 | apply ltb_false_iff in E2];
      rewrite Ht; repeat split; intros; try lra; try discriminate.
Qed.

End Creation.

Lemma C4_archetype_partition_witness :
  type (fst (createParticle halves_but_4 white 0%nat)) = scatter.
Proof.
  apply (C4_archetype_partition halves_but_4 white 0%nat). simpl. lra.
Defined.

(** ** Scatter particles *)

Lemma desiredPosition_scatter aq state w2l c d j :
  type d = scatter ->
  desiredPosition aq true state w2l c d j =
  oscillation (clock_elapsedTime state) j (fixedTarget d).
Proof. intros H. unfold desiredPosition. rewrite H. reflexivity. Qed.

(** With the draws 1/2 for the direction the particle is a scatter particle
    whose direction is the zero vector. *)
Lemma createParticle_halves_but_4 :
  let d := fst (createParticle halves_but_4 white 0%nat) in
  type d = scatter /\ fixedTarget d = Vector3.mk 0 2 0.
Proof.
  intros d. subst d.
  destruct (createParticle_target halves_but_4 white 0%nat) as (Ht & _ & Hf & _).
  rewrite createTarget_type in Ht.
  rewrite createTarget_scatter in Hf by (simpl; lra).
  split.
  - rewrite Ht.
    destruct (ltb (halves_but_4 (0 + 4)%nat) 0.116) eqn:E1;
      [apply ltb_true_iff in E1; simpl in E1; lra|].
    destruct (ltb (halves_but_4 (0 + 4)%nat) 0.537) eqn:E2;
      [apply ltb_true_iff in E2; simpl in E2; lra|].
    reflexivity.
  - rewrite Hf.
    replace (Vector3.mk (halves_but_4 (0 + 5)%nat - 0.5)
                        (halves_but_4 (S (0 + 5)) - 0.5)
                        (halves_but_4 (S (S (0 + 5))) - 0.5))
      with Vector3.zero
      by (apply Vector3_eq; simpl; lra).
    rewrite normalize_zero.
    apply Vector3_eq; simpl; lra.
Qed.


(** * Further properties of the code *)

(** ** Pointer mode and the gesture loop *)

Lemma handleAll_cons i inputs s :
  handleAll (i :: inputs) s = handleAll inputs (handle i s).
Proof. reflexivity. Qed.

Lemma calls_keep_camera cs s : cameraEnabled (calls cs s) = cameraEnabled s.
Proof.
  unfold calls. revert s. induction cs as [|c cs IH]; intros s; [reflexivity|].
  cbn [fold_left]. rewrite IH. destruct c; reflexivity.
Qed.

(** In pointer mode, and as long as no mode button is pressed, the state
    after any inputs is the one of the last pointer event (a press gathers,
    a release explodes) or, without one, the state before: results of the
    recogniser count for nothing, and the look vector and the gesture label
    stay as they were. *)
Theorem pointer_mode_follows_last_pointer_event (inputs : list Input) (s : AppState) :
  cameraEnabled s = false ->
  forallb (fun i => negb (isModeButton i)) inputs = true ->
  let s' := handleAll inputs s in
  cameraEnabled s' = false /\
  isExploded s' =
    match lastPointer inputs with
    | Some v => v
    | None => isExploded s
    end /\
  handPos s' = handPos s /\
  gestureName s' = gestureName s.
Proof.
  revert s. induction inputs as [|i inputs IH]; intros s Hcam Hno s'; subst s'.
  - cbn. auto.
  - cbn [forallb] in Hno. apply andb_prop in Hno as [Hi Hno].
    rewrite handleAll_cons.
    assert (Hstep : cameraEnabled (handle i s) = false /\
                    handPos (handle i s) = handPos s /\
                    gestureName (handle i s) = gestureName s /\
                    isExploded (handle i s) =
                      match i with
                      | PointerDown => false
                      | PointerUp => true
                      | _ => isExploded s
                      end).
    { destruct i; try discriminate; cbn [handle]; rewrite ?Hcam; cbn; auto. }
    destruct Hstep as (Hc & Hh & Hg & He).
    destruct (IH (handle i s) Hc Hno) as (Hc' & He' & Hh' & Hg').
    split; [assumption|].
    split; [|split; congruence].
    rewrite He'. cbn [lastPointer].
    destruct (lastPointer inputs); [reflexivity|].
    rewrite He. destruct i; try reflexivity; discriminate.
Qed.

Lemma pointer_mode_follows_last_pointer_event_witness :
  isExploded
    (handleAll [PointerUp; Recognized (open_palm 0.9); PointerDown;
                Recognized (open_palm 0.9)]
               App_init) = false.
Proof.
  apply (pointer_mode_follows_last_pointer_event
           [PointerUp; Recognized (open_palm 0.9); PointerDown;
            Recognized (open_palm 0.9)] App_init); reflexivity.
Defined.

(** When the first hand of a result carries no category, reading its top
    category throws, and the [catch] ends the turn: no callback is called,
    so the landmarks of that result do not move the look vector either. *)
Theorem predictWebcam_empty_hand_drops_landmarks
    (results : GestureRecognizerResult) (hands : list (list Category)) (s : AppState) :
  gestures results = [] :: hands ->
  predictWebcam results = [] /\ handle (Recognized results) s = s.
Proof.
  intros Hg.
  assert (H : predictWebcam results = []).
  { unfold predictWebcam, predictWebcam_gestures. rewrite Hg. reflexivity. }
  split; [assumption|].
  unfold handle. rewrite H. destruct (cameraEnabled s); reflexivity.
Qed.

Lemma predictWebcam_empty_hand_drops_landmarks_witness :
  handPos (handle (Recognized (mkResult [[]] (Some [repeat (mkLandmark 1 1) 21])))
                  (mkApp true true (Vector2.mk 0 0) "None")) = Vector2.mk 0 0.
Proof.
  rewrite (proj2 (predictWebcam_empty_hand_drops_landmarks
                    (mkResult [[]] (Some [repeat (mkLandmark 1 1) 21])) []
                    (mkApp true true (Vector2.mk 0 0) "None") eq_refl)).
  reflexivity.
Defined.

Lemma landmarks_keep_gestureName results s :
  gestureName (calls (predictWebcam_landmarks results) s) = gestureName s.
Proof.
  unfold predictWebcam_landmarks.
  destruct (landmarks results) as [[|hand hands]|]; try reflexivity.
  destruct (nth_error hand 9); reflexivity.
Qed.

(** The label "Detected:" in camera mode: a result without a hand resets
    it to "None"; a top category scored above 0.5 replaces it, whatever its
    name; a top category scored 0.5 or less leaves the label of an earlier
    frame on display. *)
Theorem gesture_label_in_camera_mode (s : AppState) (results : GestureRecognizerResult) :
  cameraEnabled s = true ->
  let s' := handle (Recognized results) s in
  match gestures results with
  | [] => gestureName s' = "None"%string
  | [] :: _ => gestureName s' = gestureName s
  | (top :: _) :: _ =>
      (score top > 0.5 -> gestureName s' = categoryName top) /\
      (score top <= 0.5 -> gestureName s' = gestureName s)
  end.
Proof.
  intros Hcam s'. subst s'. unfold handle. rewrite Hcam.
  unfold predictWebcam, predictWebcam_gestures.
  destruct (gestures results) as [|[|top others] hands].
  - rewrite calls_app, landmarks_keep_gestureName. reflexivity.
  - reflexivity.
  - destruct (gtb (score top) 0.5) eqn:Hs;
      [apply gtb_true_iff in Hs | apply gtb_false_iff in Hs];
      rewrite calls_app, landmarks_keep_gestureName.
    + split; [|intros; lra]. intros _.
      destruct (String.eqb (categoryName top) "Closed_Fist");
        [reflexivity|].
      destruct (String.eqb (categoryName top) "Open_Palm"); reflexivity.
    + split; [intros; lra | reflexivity].
Qed.

Lemma gesture_label_in_camera_mode_witness :
  gestureName (handle (Recognized (mkResult [[mkCategory "Thumb_Up" 0.9]] None))
                      (mkApp true true (Vector2.mk 0 0) "None")) = "Thumb_Up"%string.
Proof.
  apply (gesture_label_in_camera_mode (mkApp true true (Vector2.mk 0 0) "None")
           (mkResult [[mkCategory "Thumb_Up" 0.9]] None) eq_refl).
  simpl. lra.
Defined.

Lemma gesture_calls_keep_handPos results cs s :
  predictWebcam_gestures results = Some cs -> handPos (calls cs s) = handPos s.
Proof.
  unfold predictWebcam_gestures.
  destruct (gestures results) as [|[|top others] hands]; try discriminate.
  - intros [= <-]. reflexivity.
  - destruct (gtb (score top) 0.5).
    + destruct (String.eqb (categoryName top) "Closed_Fist");
        [intros [= <-]; reflexivity|].
      destruct (String.eqb (categoryName top) "Open_Palm");
        intros [= <-]; reflexivity.
    + intros [= <-]. reflexivity.
Qed.

(** The look vector is moved only by the tenth landmark of the first
    hand: a result without landmarks, without a hand, or whose first hand
    has fewer than ten landmarks leaves the look vector where it was. *)
Theorem look_vector_needs_tenth_landmark (s : AppState) (results : GestureRecognizerResult) :
  match landmarks results with
  | Some (hand :: _) => (List.length hand <= 9)%nat
  | _ => True
  end ->
  handPos (handle (Recognized results) s) = handPos s.
Proof.
  intros H. unfold handle. destruct (cameraEnabled s); [|reflexivity].
  unfold predictWebcam.
  destruct (predictWebcam_gestures results) as [cs|] eqn:E; [|reflexivity].
  rewrite calls_app.
  assert (Hl : predictWebcam_landmarks results = []).
  { unfold predictWebcam_landmarks.
    destruct (landmarks results) as [[|hand hands]|]; try reflexivity.
    apply nth_error_None in H. rewrite H. reflexivity. }
  rewrite Hl. cbn [calls fold_left].
  eapply gesture_calls_keep_handPos; eassumption.
Qed.

Lemma look_vector_needs_tenth_landmark_witness :
  handPos (handle (Recognized (mkResult [] (Some [repeat (mkLandmark 1 1) 9])))
                  (mkApp true true (Vector2.mk 0 0) "None")) = Vector2.mk 0 0.
Proof.
  apply (look_vector_needs_tenth_landmark (mkApp true true (Vector2.mk 0 0) "None")
           (mkResult [] (Some [repeat (mkLandmark 1 1) 9]))).
  simpl. lia.
Defined.

(** ** The rig over frames *)

Section RigFrames.

Variable random : RandomSource.
Variable aq : Vector3.t -> Quaternion -> Vector3.t.

(** In camera mode, with the look vector held, every frame closes a tenth
    of the gap between the rotation of the group and its goal
    [(- y * 3 / 2, x * 3 / 2)]: after [n] frames the gap is [0.9 ^ n] of
    what it was.  The third angle, the position and the scale of the group
    are not touched. *)
Theorem Rig_closes_a_tenth_per_frame (es : list Event) (s : Scene) (g : Object3D.t) :
  forallb isFrame es = true ->
  cameraEnabled (app s) = true ->
  group_current s = Some g ->
  let goal_y := Vector2.x (handPos (app s)) * 3 / 2 in
  let goal_x := - (Vector2.y (handPos (app s)) * 3) / 2 in
  exists g' : Object3D.t,
    group_current (run random aq es s) = Some g' /\
    ey (Object3D.rotation g') - goal_y =
      0.9 ^ List.length es * (ey (Object3D.rotation g) - goal_y) /\
    ex (Object3D.rotation g') - goal_x =
      0.9 ^ List.length es * (ex (Object3D.rotation g) - goal_x) /\
    ez (Object3D.rotation g') = ez (Object3D.rotation g) /\
    Object3D.position g' = Object3D.position g /\
    Object3D.scale g' = Object3D.scale g.
Proof.
  revert s g. induction es as [|e es IH]; intros s g Hes Hcam Hg goal_y goal_x.
  - exists g. cbn [run fold_left List.length pow]. repeat split; auto; lra.
  - cbn [forallb] in Hes. apply andb_prop in Hes as [He Hes].
    destruct e as [i | state delta w2l]; [discriminate|].
    rewrite run_cons.
    set (s1 := step random aq (frame state delta w2l) s).
    assert (Happ : app s1 = app s) by (unfold s1; rewrite step_frame; reflexivity).
    assert (Hg1 : group_current s1 =
                  Rig_useFrame true (handPos (app s)) state (Some g)).
    { unfold s1. rewrite step_frame. cbn [group_current]. rewrite Hcam, Hg. reflexivity. }
    cbn [Rig_useFrame] in Hg1.
    destruct (IH s1 _ Hes (eq_trans (f_equal cameraEnabled Happ) Hcam) Hg1)
      as (g' & Hg' & Hy & Hx & Hz & Hp & Hs).
    rewrite Happ in Hy, Hx.
    exists g'. split; [assumption|].
    cbn [Object3D.rotation Object3D.position Object3D.scale ex ey ez] in Hy, Hx, Hz, Hp, Hs.
    unfold MathUtils.lerp in Hy, Hx.
    fold goal_y in Hy. fold goal_x in Hx.
    cbn [List.length pow].
    repeat split; try assumption.
    + rewrite Hy. unfold goal_y. lra.
    + rewrite Hx. unfold goal_x. lra.
Qed.

End RigFrames.

Lemma Rig_closes_a_tenth_per_frame_witness :
  exists g' : Object3D.t,
    group_current
      (run halves identityQuaternion
           [frame (sample_state 0) (1 / 60) (fun v => v);
            frame (sample_state (1 / 60)) (1 / 60) (fun v => v)]
           (mkScene (mkApp true true (Vector2.mk 1 0) "None")
                    (Some sample_object) [] sample_world)) = Some g' /\
    ey (Object3D.rotation g') = 0.285.
Proof.
  destruct (Rig_closes_a_tenth_per_frame halves identityQuaternion
              [frame (sample_state 0) (1 / 60) (fun v => v);
               frame (sample_state (1 / 60)) (1 / 60) (fun v => v)]
              (mkScene (mkApp true true (Vector2.mk 1 0) "None")
                       (Some sample_object) [] sample_world)
              sample_object eq_refl eq_refl eq_refl)
    as (g' & H & Hy & _).
  exists g'. split; [exact H|].
  simpl in Hy. lra.
Defined.

(** ** What creation gives a particle *)

Lemma sphere_norm r sp cp st ct :
  sp * sp + cp * cp = 1 ->
  st * st + ct * ct = 1 ->
  r * sp * ct * (r * sp * ct) + r * cp * (r * cp) + r * sp * st * (r * sp * st) = r * r.
Proof.
  intros H1 H2.
  replace (r * sp * ct * (r * sp * ct) + r * cp * (r * cp) + r * sp * st * (r * sp * st))
    with (r * r * (sp * sp * (st * st + ct * ct) + cp * cp)) by ring.
  rewrite H2. replace (sp * sp * 1 + cp * cp) with (sp * sp + cp * cp) by ring.
  rewrite H1. ring.
Qed.

Lemma sin_cos_unit a : sin a * sin a + cos a * cos a = 1.
Proof. pose proof (sin2_cos2 a) as H. unfold Rsqr in H. exact H. Qed.

Lemma Rabs_square a : Rabs a * Rabs a = a * a.
Proof. unfold Rabs. destruct (Rcase_abs a); ring. Qed.

Lemma Math_cbrt_unit w : 0 <= w < 1 -> 0 <= Math_cbrt w < 1.
Proof.
  intros [H0 H1]. unfold Math_cbrt.
  destruct (Req_dec_T w 0) as [E | E]; [lra|].
  destruct (Rlt_dec 0 w) as [Hp | Hp]; [|lra].
  pose proof (exp_pos (ln w / 3)).
  assert (Hl : ln w < 0) by (rewrite <- ln_1; apply ln_increasing; lra).
  assert (exp (ln w / 3) < exp 0) by (apply exp_increasing; lra).
  rewrite exp_0 in *. lra.
Qed.

Lemma Math_floor_index k (n : nat) :
  0 <= k < 1 -> (0 < n)%nat -> (Math_floor (k * INR n) < n)%nat.
Proof.
  intros [H0 H1] Hn. unfold Math_floor.
  assert (Hpos : 0 < INR n) by (apply lt_0_INR; assumption).
  destruct (base_Int_part (k * INR n)) as [Hle Hgt].
  assert (Hub : IZR (Int_part (k * INR n)) < IZR (Z.of_nat n)).
  { rewrite <- INR_IZR_INZ. nra. }
  apply lt_IZR in Hub.
  assert (Hlb : IZR (-1) < IZR (Int_part (k * INR n))).
  { assert (0 <= k * INR n) by nra. lra. }
  apply lt_IZR in Hlb. lia.
Qed.

Section Created.

Variable random : RandomSource.
Variable THREE_Color : string -> Color.t.

Lemma createTarget_draws u n :
  snd (createTarget random u n) =
  if ltb u 0.537 then (n + 3)%nat else (n + 4)%nat.
Proof.
  unfold createTarget, bind, Math_random, ret.
  destruct (ltb u 0.116) eqn:E1.
  - apply ltb_true_iff in E1.
    destruct (ltb u 0.537) eqn:E2; [cbn [snd]; lia|].
    apply ltb_false_iff in E2. lra.
  - destruct (ltb u 0.537); cbn [snd]; lia.
Qed.

(** The fields of a created particle, and the draws its creation takes. *)
Lemma createParticle_fields n :
  let h := fst (createHome random n) in
  let tof := createTarget random (random (n + 4)%nat) (n + 5)%nat in
  let m := snd tof in
  fst (createParticle random THREE_Color n) =
    mkParticle h (fst (fst (fst tof))) (snd (fst (fst tof))) (snd (fst tof))
      (THREE_Color
         (nth (Math_floor (random m * INR (List.length COLORS_hearts)))
              COLORS_hearts EmptyString))
      ((random (S m) - 0.5) * 2)
      (0.04 + random (S (S m)) * 0.14)
      h
      (random (S (S (S m))) * PI * 2) /\
  snd (createParticle random THREE_Color n) = (m + 4)%nat.
Proof.
  intros h tof m. subst h tof m.
  unfold createParticle, bind.
  pose proof (createHome_draws random n) as Hn.
  destruct (createHome random n) as [h n']. cbn [snd fst] in *. subst n'.
  unfold Math_random.
  replace (S (n + 4)) with (n + 5)%nat by lia.
  destruct (createTarget random (random (n + 4)%nat) (n + 5)%nat) as [[[t o] f] n''].
  cbn [fst snd ret]. split; [reflexivity | lia].
Qed.

(** The home of a particle lies in the mushroom.  When the first draw of
    its creation is above 0.3 the home is in the half ball of radius 1.2
    that sits on the height 2, the cap; otherwise it is in the cylinder of
    radius 0.4 between the heights 0 and 2, the stem. *)
Theorem home_is_in_cap_or_stem (n : nat) :
  let h := home (fst (createParticle random THREE_Color n)) in
  let sq := fun v : R => v * v in
  (random n > 0.3 ->
   2 <= Vector3.y h /\
   sq (Vector3.x h) + sq (Vector3.y h - 2) + sq (Vector3.z h) < sq 1.2) /\
  (random n <= 0.3 ->
   0 <= Vector3.y h < 2 /\
   sq (Vector3.x h) + sq (Vector3.z h) < sq 0.4).
Proof.
  intros h sq. subst h sq.
  destruct (createParticle_fields n) as [-> _]. cbn [home].
  unfold createHome, bind, Math_random, ret. cbv beta.
  destruct (gtb (random n) 0.3) eqn:E;
    [apply gtb_true_iff in E | apply gtb_false_iff in E]; cbn [fst];
    (split; [intros Hc | intros Hs]; try lra).
  - cbn [Vector3.x Vector3.y Vector3.z].
    set (r := 1.2 * Math_cbrt (random (S (S (S n))))).
    set (phi := acos (2 * random (S (S n)) - 1)).
    set (theta := 2 * PI * random (S n)).
    pose proof (Math_cbrt_unit _ (draw_range (random (S (S (S n)))))) as Hw.
    assert (Hr : 0 <= r < 1.2) by (unfold r; lra).
    split; [pose proof (Rabs_pos (r * cos phi)); lra|].
    replace (2 + Rabs (r * cos phi) - 2) with (Rabs (r * cos phi)) by ring.
    rewrite Rabs_square.
    rewrite (sphere_norm r (sin phi) (cos phi) (sin theta) (cos theta))
      by apply sin_cos_unit.
    nra.
  - cbn [Vector3.x Vector3.y Vector3.z].
    pose proof (draw_range (random (S n))) as Ha.
    pose proof (draw_range (random (S (S n)))) as Hb.
    pose proof (draw_range (random (S (S (S n))))) as Hc.
    set (theta := random (S n) * PI * 2).
    split; [lra|].
    replace (random (S (S n)) * 0.4 * cos theta * (random (S (S n)) * 0.4 * cos theta) +
             random (S (S n)) * 0.4 * sin theta * (random (S (S n)) * 0.4 * sin theta))
      with (random (S (S n)) * 0.4 * (random (S (S n)) * 0.4) *
            (sin theta * sin theta + cos theta * cos theta)) by ring.
    rewrite sin_cos_unit. nra.
Qed.

End Created.

Lemma home_is_in_cap_or_stem_witness :
  2 <= Vector3.y (home (fst (createParticle halves white 0%nat))).
Proof.
  apply (home_is_in_cap_or_stem halves white 0%nat). simpl. lra.
Defined.

Section CreatedParameters.

Variable random : RandomSource.
Variable THREE_Color : string -> Color.t.

Lemma createTarget_front u n :
  u < 0.116 ->
  let dist := 1.5 + random n * 4.5 in
  let spread := 0.5 + dist * 0.2 in
  let angle := random (S n) * PI * 2 in
  let radius := random (S (S n)) * spread in
  fst (createTarget random u n) =
  (front, Vector3.mk (cos angle * radius) (sin angle * radius) (- dist), Vector3.zero).
Proof.
  intros Hu. unfold createTarget, bind, Math_random, ret.
  destruct (ltb u 0.116) eqn:E; [reflexivity|].
  apply ltb_false_iff in E. lra.
Qed.

Lemma createTarget_surround u n :
  0.116 <= u < 0.537 ->
  fst (createTarget random u n) =
  (surround,
   Vector3.setFromSphericalCoords (2.0 + random n * 5.0)
     (acos (2 * random (S (S n)) - 1)) (random (S n) * PI * 2),
   Vector3.zero).
Proof.
  intros Hu. unfold createTarget, bind, Math_random, ret.
  destruct (ltb u 0.116) eqn:E1; [apply ltb_true_iff in E1; lra|].
  destruct (ltb u 0.537) eqn:E2; [reflexivity|].
  apply ltb_false_iff in E2. lra.
Qed.

Lemma createTarget_scatter_offset u n :
  0.537 <= u -> snd (fst (fst (createTarget random u n))) = Vector3.zero.
Proof.
  intros Hu. unfold createTarget, bind, Math_random, ret.
  destruct (ltb u 0.116) eqn:E1; [apply ltb_true_iff in E1; lra|].
  destruct (ltb u 0.537) eqn:E2; [apply ltb_true_iff in E2; lra|].
  reflexivity.
Qed.

Lemma type_decides_draw n :
  let u := draw_val (random (n + 4)%nat) in
  let d := fst (createParticle random THREE_Color n) in
  match type d with
  | front => u < 0.116
  | surround => 0.116 <= u < 0.537
  | scatter => 0.537 <= u
  end.
Proof.
  intros u d.
  destruct (createParticle_target random THREE_Color n) as (Ht & _). fold d in Ht.
  rewrite createTarget_type in Ht. fold u in Ht.
  destruct (ltb u 0.116) eqn:E1;
    [apply ltb_true_iff in E1 | apply ltb_false_iff in E1].
  - rewrite Ht. assumption.
  - destruct (ltb u 0.537) eqn:E2;
      [apply ltb_true_iff in E2 | apply ltb_false_iff in E2];
      rewrite Ht; lra.
Qed.

(** The parameters each type is created with.  A front particle has no
    fixed target; its offset is between 1.5 and 6 in front of the camera
    (along -z), inside a disk whose radius, [0.5 + 0.2 * depth], grows with
    that depth.  A surround particle has no fixed target either, and its
    offset has a length in [2, 7).  A scatter particle has the zero
    offset. *)
Theorem archetype_parameters (n : nat) :
  let d := fst (createParticle random THREE_Color n) in
  let o := offset d in
  match type d with
  | front =>
      fixedTarget d = Vector3.zero /\
      -6 < Vector3.z o <= -1.5 /\
      Vector3.x o * Vector3.x o + Vector3.y o * Vector3.y o <
      (0.5 + 0.2 * - Vector3.z o) * (0.5 + 0.2 * - Vector3.z o)
  | surround =>
      fixedTarget d = Vector3.zero /\
      2 <= Vector3.length o < 7
  | scatter => o = Vector3.zero
  end.
Proof.
  intros d o. subst o.
  pose proof (type_decides_draw n) as Hu. cbv zeta in Hu. fold d in Hu.
  destruct (createParticle_target random THREE_Color n) as (_ & Ho & Hf & _).
  fold d in Ho, Hf.
  destruct (type d).
  - rewrite (createTarget_front _ _ Hu) in Ho, Hf. cbn [fst snd] in Ho, Hf.
    rewrite Ho, Hf. cbn [Vector3.x Vector3.y Vector3.z].
    pose proof (draw_range (random (n + 5)%nat)) as Ha.
    pose proof (draw_range (random (S (S (n + 5))))) as Hc.
    set (a := draw_val (random (n + 5)%nat)) in *.
    set (c := draw_val (random (S (S (n + 5))))) in *.
    set (angle := random (S (n + 5)) * PI * 2).
    split; [reflexivity|]. split; [lra|].
    replace (cos angle * (c * (0.5 + (1.5 + a * 4.5) * 0.2)) *
             (cos angle * (c * (0.5 + (1.5 + a * 4.5) * 0.2))) +
             sin angle * (c * (0.5 + (1.5 + a * 4.5) * 0.2)) *
             (sin angle * (c * (0.5 + (1.5 + a * 4.5) * 0.2))))
      with (c * (0.5 + (1.5 + a * 4.5) * 0.2) * (c * (0.5 + (1.5 + a * 4.5) * 0.2)) *
            (sin angle * sin angle + cos angle * cos angle)) by ring.
    rewrite sin_cos_unit, Rmult_1_r.
    replace (0.5 + 0.2 * - - (1.5 + a * 4.5))
      with (0.5 + (1.5 + a * 4.5) * 0.2) by ring.
    set (spread := 0.5 + (1.5 + a * 4.5) * 0.2).
    assert (Hs : 0 < spread) by (unfold spread; lra).
    assert (Hcs : 0 <= c * spread < spread) by nra.
    nra.
  - rewrite (createTarget_surround _ _ Hu) in Ho, Hf. cbn [fst snd] in Ho, Hf.
    rewrite Ho, Hf. split; [reflexivity|].
    pose proof (draw_range (random (n + 5)%nat)) as Ha.
    set (r := 2.0 + random (n + 5)%nat * 5.0) in *.
    set (phi := acos (2 * random (S (S (n + 5))) - 1)).
    set (theta := random (S (n + 5)) * PI * 2).
    unfold Vector3.length, Vector3.setFromSphericalCoords.
    cbn [Vector3.x Vector3.y Vector3.z]. cbv zeta.
    replace (sin phi * r * sin theta * (sin phi * r * sin theta) +
             cos phi * r * (cos phi * r) +
             sin phi * r * cos theta * (sin phi * r * cos theta))
      with (r * r * (sin phi * sin phi * (sin theta * sin theta + cos theta * cos theta) +
                     cos phi * cos phi)) by ring.
    rewrite sin_cos_unit.
    replace (sin phi * sin phi * 1 + cos phi * cos phi)
      with (sin phi * sin phi + cos phi * cos phi) by ring.
    rewrite sin_cos_unit, Rmult_1_r.
    rewrite sqrt_square by (unfold r; lra).
    unfold r. lra.
  - rewrite Ho. apply createTarget_scatter_offset. assumption.
Qed.

(** The static parameters of a created particle: the scale is in
    [0.04, 0.18), the rotation speed in [-1, 1), the phase in [0, 2 PI),
    the colour is one of the six of [COLORS.hearts], and the particle
    starts at its home. *)
Theorem created_particle_statics (n : nat) :
  let d := fst (createParticle random THREE_Color n) in
  0.04 <= scale d < 0.18 /\
  -1 <= rotSpeed d < 1 /\
  0 <= phase d < 2 * PI /\
  In (color d) (map THREE_Color COLORS_hearts) /\
  currentPos d = home d.
Proof.
  intros d. subst d.
  destruct (createParticle_fields random THREE_Color n) as [-> _].
  cbn [scale rotSpeed phase color currentPos home].
  set (m := snd (createTarget random (random (n + 4)%nat) (n + 5)%nat)).
  pose proof (draw_range (random m)) as H0.
  pose proof (draw_range (random (S m))) as H1.
  pose proof (draw_range (random (S (S m)))) as H2.
  pose proof (draw_range (random (S (S (S m))))) as H3.
  pose proof PI_RGT_0 as Hpi.
  split; [lra|]. split; [lra|]. split; [nra|]. split; [|reflexivity].
  apply in_map. apply nth_In.
  apply Math_floor_index; [assumption | cbn; lia].
Qed.

Lemma createParticle_draws n :
  (n + 12 <= snd (createParticle random THREE_Color n) <= n + 13)%nat.
Proof.
  destruct (createParticle_fields random THREE_Color n) as [_ ->].
  rewrite createTarget_draws.
  destruct (ltb (random (n + 4)%nat) 0.537); lia.
Qed.

Lemma createData_S c n :
  createData random THREE_Color (S c) n =
  let r := createParticle random THREE_Color n in
  let rest := createData random THREE_Color c (snd r) in
  (fst r :: fst rest, snd rest).
Proof.
  cbn [createData]. unfold bind, ret.
  destruct (createParticle random THREE_Color n) as [d n1]. cbn [fst snd].
  destruct (createData random THREE_Color c n1) as [temp n2]. reflexivity.
Qed.

Lemma createParticle_draws_by_type n :
  snd (createParticle random THREE_Color n) =
  match type (fst (createParticle random THREE_Color n)) with
  | scatter => (n + 13)%nat
  | _ => (n + 12)%nat
  end.
Proof.
  destruct (createParticle_fields random THREE_Color n) as [_ ->].
  destruct (createParticle_target random THREE_Color n) as (-> & _).
  rewrite createTarget_draws, createTarget_type.
  destruct (ltb (random (n + 4)%nat) 0.116) eqn:E1.
  - apply ltb_true_iff in E1.
    destruct (ltb (random (n + 4)%nat) 0.537) eqn:E2; [lia|].
    apply ltb_false_iff in E2. lra.
  - destruct (ltb (random (n + 4)%nat) 0.537); lia.
Qed.

(** [createData count] makes exactly [count] particles, each by one turn of
    the loop, started at some later draw; a turn takes 13 draws when it
    makes a scatter particle and 12 otherwise, so the loop takes 12 draws a
    particle and one more for every scatter particle it made.  For
    [count = 0] there is no particle and no draw. *)
Theorem createData_makes_count_particles (c n : nat) :
  let r := createData random THREE_Color c n in
  let isScatter :=
    fun d : Particle => match type d with scatter => true | _ => false end in
  List.length (fst r) = c /\
  snd r = (n + 12 * c + List.length (filter isScatter (fst r)))%nat /\
  (n + 12 * c <= snd r <= n + 13 * c)%nat /\
  Forall (fun d => exists n',
              (n <= n')%nat /\
              d = fst (createParticle random THREE_Color n') /\
              snd (createParticle random THREE_Color n') =
                (n' + if isScatter d then 13 else 12)%nat)
         (fst r) /\
  createData random THREE_Color 0 n = ([], n).
Proof.
  revert n. induction c as [|c IH]; intros n r isScatter; subst r.
  - cbn. repeat split; try lia. constructor.
  - rewrite createData_S. cbv zeta. cbn [fst snd List.length filter].
    pose proof (createParticle_draws n) as Hd.
    pose proof (createParticle_draws_by_type n) as Ht.
    destruct (IH (snd (createParticle random THREE_Color n)))
      as (Hl & Hex & Hn & Hf & _).
    fold isScatter in Hex, Hf.
    split; [congruence|].
    split.
    { rewrite Hex. unfold isScatter at 2.
      destruct (type (fst (createParticle random THREE_Color n)));
        cbn [List.length]; lia. }
    split; [lia|]. split; [|reflexivity].
    constructor.
    + exists n. split; [lia|]. split; [reflexivity|].
      rewrite Ht. unfold isScatter.
      destruct (type (fst (createParticle random THREE_Color n))); reflexivity.
    + eapply Forall_impl; [|exact Hf].
      intros d (n' & Hn' & Hd' & Hs). exists n'.
      split; [lia|]. split; assumption.
Qed.

End CreatedParameters.

Lemma archetype_parameters_witness :
  offset (fst (createParticle halves_but_4 white 0%nat)) = Vector3.zero.
Proof.
  pose proof (archetype_parameters halves_but_4 white 0%nat) as H.
  cbv zeta in H.
  rewrite (proj1 createParticle_halves_but_4) in H. exact H.
Defined.

(** ** What a frame writes and takes *)

Section FrameWrites.

Variable random : RandomSource.
Variable aq : Vector3.t -> Quaternion -> Vector3.t.
Variable isExploded : bool.
Variable state : RootState.
Variable delta : R.
Variable w2l : Vector3.t -> Vector3.t.
Variable speed : R.

Local Abbreviation time := (clock_elapsedTime state).
Local Abbreviation body :=
  (forEach_body random aq isExploded state delta w2l speed time).

Lemma body_mesh_matrix d i w :
  meshRef_current (snd (body d i w)) =
  option_map
    (fun mesh =>
       setColorAt i (Color.multiplyScalar (color d) (intensity time d))
         (setMatrixAt i (instanceMatrixOf isExploded time (fst (body d i w))) mesh))
    (meshRef_current w).
Proof.
  unfold body, forEach_body, World_random, Math_random.
  destruct (setTarget_frame aq isExploded state w2l d i w) as (_ & _ & Hm).
  cbn. rewrite Hm.
  destruct (meshRef_current w); reflexivity.
Qed.

Lemma forEach_keeps_matrix data i0 w mesh k m :
  (k < i0)%nat ->
  meshRef_current w = Some mesh ->
  instanceMatrix mesh k = Some m ->
  exists mesh',
    meshRef_current (snd (forEach body data i0 w)) = Some mesh' /\
    instanceMatrix mesh' k = Some m.
Proof.
  revert i0 w mesh.
  induction data as [|d rest IH]; intros i0 w mesh Hk Hm Hb.
  - cbn [forEach snd]. eauto.
  - rewrite forEach_cons. cbn [snd].
    pose proof (body_mesh_matrix d i0 w) as Hm'.
    rewrite Hm in Hm'. cbn [option_map] in Hm'.
    eapply IH; [lia | exact Hm' |].
    cbn [setColorAt setMatrixAt instanceMatrix].
    destruct (Nat.eqb_spec k i0); [lia | assumption].
Qed.

Lemma forEach_matrix data i0 w mesh j d :
  nth_error data j = Some d ->
  meshRef_current w = Some mesh ->
  exists mesh',
    meshRef_current (snd (forEach body data i0 w)) = Some mesh' /\
    instanceMatrix mesh' (i0 + j)%nat =
    Some (instanceMatrixOf isExploded time
            (set_currentPos
               (Vector3.lerp (currentPos d)
                  (desiredPosition aq isExploded state w2l (camLocalPos w) d (i0 + j))
                  (lerpFactor delta speed (random (draws w + j)%nat)))
               d)).
Proof.
  revert i0 w mesh j. induction data as [|d0 rest IH]; intros i0 w mesh j H Hm.
  - destruct j; discriminate.
  - rewrite forEach_cons. cbn [snd].
    pose proof (body_mesh_matrix d0 i0 w) as Hm'.
    rewrite Hm in Hm'. cbn [option_map] in Hm'.
    destruct j as [|j]; cbn [nth_error] in *.
    + injection H as <-. rewrite !Nat.add_0_r.
      eapply forEach_keeps_matrix; [lia | exact Hm' |].
      cbn [setColorAt setMatrixAt instanceMatrix].
      rewrite Nat.eqb_refl, body_fst. reflexivity.
    + replace (i0 + S j)%nat with (S i0 + j)%nat by lia.
      replace (draws w + S j)%nat with (S (draws w) + j)%nat by lia.
      rewrite <- (body_draws random aq isExploded state delta w2l speed d0 i0 w).
      rewrite <- (body_camLocalPos random aq isExploded state delta w2l speed d0 i0 w).
      eapply IH; eassumption.
Qed.

End FrameWrites.

Lemma instanceScale_bounds b d :
  0 <= scale d ->
  0 <= instanceScale b d <= scale d.
Proof.
  intros Hs. unfold instanceScale.
  destruct b; cbn [negb]; [lra|].
  pose proof (distanceTo_nonneg (currentPos d) (home d)) as Hd.
  destruct (ltb (Vector3.distanceTo (currentPos d) (home d)) 0.2) eqn:E;
    [apply ltb_true_iff in E; nra | lra].
Qed.

Lemma distanceTo_self p : Vector3.distanceTo p p = 0.
Proof.
  unfold Vector3.distanceTo. cbv zeta.
  replace ((Vector3.x p - Vector3.x p) * (Vector3.x p - Vector3.x p) +
           (Vector3.y p - Vector3.y p) * (Vector3.y p - Vector3.y p) +
           (Vector3.z p - Vector3.z p) * (Vector3.z p - Vector3.z p)) with 0 by ring.
  apply sqrt_0.
Qed.

Section FrameAccounting.

Variable random : RandomSource.
Variable aq : Vector3.t -> Quaternion -> Vector3.t.

(** A frame keeps the number of particles and takes one draw of
    [Math.random] for each of them; it leaves the mesh mounted, with the
    matrix buffer marked for upload and the camera position, in the frame
    of the mesh, in [camLocalPos].  While the mesh is not mounted the
    callback does nothing: no particle moves and no draw is taken. *)
Theorem frame_takes_one_draw_per_particle
    (b : bool) (state : RootState) (delta : R) (w2l : Vector3.t -> Vector3.t)
    (particles : list Particle) (w : World) :
  let r := HeartParticles_useFrame random aq b state delta w2l particles w in
  List.length (fst r) = List.length particles /\
  match meshRef_current w with
  | Some _ =>
      draws (snd r) = (draws w + List.length particles)%nat /\
      camLocalPos (snd r) = w2l (camera_position state) /\
      exists mesh',
        meshRef_current (snd r) = Some mesh' /\
        instanceMatrix_needsUpdate mesh' = true
  | None => r = (particles, w)
  end.
Proof.
  intros r. subst r.
  destruct (meshRef_current w) as [mesh|] eqn:Hm.
  - rewrite (useFrame_mounted random aq b state delta w2l particles w mesh Hm).
    cbv zeta. cbn [fst snd].
    split; [apply forEach_length|].
    split; [unfold on_mesh; cbn [draws]; rewrite forEach_draws; reflexivity|].
    split; [unfold on_mesh; cbn [camLocalPos]; rewrite forEach_camLocalPos; reflexivity|].
    destruct (forEach_mounted random aq b state delta w2l (if b then 3 else 6)
                particles 0 (set_camLocalPos (w2l (camera_position state)) w) mesh Hm)
      as [mesh' Hm'].
    exists (markNeedsUpdate mesh'). unfold on_mesh. cbn [meshRef_current].
    rewrite Hm'. split; reflexivity.
  - rewrite useFrame_unmounted by assumption. split; reflexivity.
Qed.

(** The matrix a frame writes for a particle composes its new position,
    the rotation [(t * rotSpeed, t * rotSpeed * 0.5, 0)] and a uniform
    scale.  The scale is the one of the particle when exploded, and when
    gathered at 0.2 or more from home; nearer to home it is
    [scale * dist * 5], which is 0 at home.  It is never above the scale of
    the particle. *)
Theorem frame_writes_matrix_with_pop_in
    (b : bool) (state : RootState) (delta : R) (w2l : Vector3.t -> Vector3.t)
    (particles : list Particle) (w : World) (mesh : InstancedMesh)
    (j : nat) (d : Particle) :
  meshRef_current w = Some mesh ->
  nth_error particles j = Some d ->
  let r := HeartParticles_useFrame random aq b state delta w2l particles w in
  let t := clock_elapsedTime state in
  exists (d' : Particle) (mesh' : InstancedMesh) (s : R),
    nth_error (fst r) j = Some d' /\
    meshRef_current (snd r) = Some mesh' /\
    instanceMatrix mesh' j =
      Some (compose (currentPos d')
                    (mkEuler (t * rotSpeed d) (t * rotSpeed d * 0.5) 0)
                    (Vector3.mk s s s)) /\
    let dist := Vector3.distanceTo (currentPos d') (home d) in
    (b = true -> s = scale d) /\
    (b = false -> 0.2 <= dist -> s = scale d) /\
    (b = false -> dist < 0.2 -> s = scale d * (dist * 5)) /\
    (b = false -> currentPos d' = home d -> s = 0) /\
    (0 <= scale d -> 0 <= s <= scale d).
Proof.
  intros Hm Hd r t. subst r t.
  set (d' := movedParticle random aq b state delta w2l w d j).
  rewrite (useFrame_mounted random aq b state delta w2l particles w mesh Hm).
  cbv zeta. cbn [fst snd].
  destruct (forEach_matrix random aq b state delta w2l (if b then 3 else 6)
              particles 0 (set_camLocalPos (w2l (camera_position state)) w)
              mesh j d Hd Hm) as (mesh' & Hm' & Hmat).
  exists d', (markNeedsUpdate mesh'), (instanceScale b d').
  split; [erewrite forEach_nth by eassumption; reflexivity|].
  split; [unfold on_mesh; cbn [meshRef_current]; rewrite Hm'; reflexivity|].
  split; [exact Hmat|].
  cbv zeta.
  change (home d) with (home d'). change (scale d) with (scale d').
  split; [intros ->; reflexivity|].
  split; [intros -> Hfar; unfold instanceScale; cbn [negb];
          destruct (ltb _ 0.2) eqn:E; [apply ltb_true_iff in E; lra | reflexivity]|].
  split; [intros -> Hnear; unfold instanceScale; cbn [negb];
          destruct (ltb _ 0.2) eqn:E; [reflexivity | apply ltb_false_iff in E; lra]|].
  split; [|apply instanceScale_bounds].
  intros -> Hhome. unfold instanceScale. cbn [negb]. rewrite Hhome, distanceTo_self.
  destruct (ltb 0 0.2) eqn:E; [ring | apply ltb_false_iff in E; lra].
Qed.

(** A gathered frame multiplies the distance of a particle to its home by
    [|1 - a|], [a] being the factor [delta * 6 * (0.8 + 0.4 r)], which is
    not clamped.  For [delta] up to 5/18 s the particle ends no farther
    from home; for [delta] of 5/12 s or more it overshoots and ends no
    nearer than it started. *)
Theorem gathered_frame_scales_distance
    (state : RootState) (delta : R) (w2l : Vector3.t -> Vector3.t)
    (particles : list Particle) (w : World) (mesh : InstancedMesh)
    (j : nat) (d : Particle) :
  meshRef_current w = Some mesh ->
  nth_error particles j = Some d ->
  let a := lerpFactor delta 6 (random (draws w + j)%nat) in
  let before := Vector3.distanceTo (currentPos d) (home d) in
  exists d' : Particle,
    nth_error
      (fst (HeartParticles_useFrame random aq false state delta w2l particles w)) j =
    Some d' /\
    let after := Vector3.distanceTo (currentPos d') (home d) in
    after = Rabs (1 - a) * before /\
    (0 <= delta <= 5 / 18 -> after <= before) /\
    (5 / 12 <= delta -> before <= after).
Proof.
  intros Hm Hd a before.
  exists (movedParticle random aq false state delta w2l w d j).
  split; [eapply useFrame_nth; eassumption|].
  cbv zeta. unfold movedParticle, desiredPosition. cbn [currentPos set_currentPos].
  rewrite distanceTo_lerp. fold a. fold before.
  pose proof (draw_range (random (draws w + j)%nat)) as Hr.
  pose proof (distanceTo_nonneg (currentPos d) (home d)) as Hb. fold before in Hb.
  split; [reflexivity|]. split.
  - intros Hdelta.
    assert (Ha : 0 <= a <= 2) by (unfold a, lerpFactor; nra).
    assert (Rabs (1 - a) <= 1) by (apply Rabs_le; lra).
    nra.
  - intros Hdelta.
    assert (Ha : 2 <= a) by (unfold a, lerpFactor; nra).
    assert (1 <= Rabs (1 - a)).
    { rewrite Rabs_left1 by lra. lra. }
    nra.
Qed.

End FrameAccounting.

Lemma frame_takes_one_draw_per_particle_witness :
  draws (snd (HeartParticles_useFrame halves identityQuaternion true (sample_state 0)
                (1 / 60) (fun v => v)
                [sample_particle front; sample_particle scatter] sample_world)) = 2%nat.
Proof.
  apply (frame_takes_one_draw_per_particle halves identityQuaternion true
           (sample_state 0) (1 / 60) (fun v => v)
           [sample_particle front; sample_particle scatter] sample_world).
Defined.

Lemma frame_writes_matrix_with_pop_in_witness :
  exists (d' : Particle) (mesh' : InstancedMesh) (s : R),
    nth_error
      (fst (HeartParticles_useFrame halves identityQuaternion false (sample_state 0)
              0 (fun v => v) [sample_particle scatter] sample_world)) 0 = Some d' /\
    meshRef_current
      (snd (HeartParticles_useFrame halves identityQuaternion false (sample_state 0)
              0 (fun v => v) [sample_particle scatter] sample_world)) = Some mesh' /\
    instanceMatrix mesh' 0%nat =
      Some (compose (currentPos d') (mkEuler (0 * 1) (0 * 1 * 0.5) 0) (Vector3.mk s s s)) /\
    0 <= s <= 0.1.
Proof.
  destruct (frame_writes_matrix_with_pop_in halves identityQuaternion false
              (sample_state 0) 0 (fun v => v) [sample_particle scatter] sample_world
              sample_mesh 0 (sample_particle scatter) eq_refl eq_refl)
    as (d' & mesh' & s & H1 & H2 & H3 & _ & _ & _ & _ & H4).
  exists d', mesh', s. repeat split; try assumption; apply H4; simpl; lra.
Defined.

Lemma gathered_frame_scales_distance_witness :
  exists d' : Particle,
    nth_error
      (fst (HeartParticles_useFrame halves identityQuaternion false (sample_state 0)
              0.5 (fun v => v) [sample_particle scatter] sample_world)) 0 = Some d' /\
    Vector3.distanceTo (currentPos (sample_particle scatter))
                       (home (sample_particle scatter)) <=
    Vector3.distanceTo (currentPos d') (home (sample_particle scatter)).
Proof.
  destruct (gathered_frame_scales_distance halves identityQuaternion (sample_state 0)
              0.5 (fun v => v) [sample_particle scatter] sample_world sample_mesh
              0 (sample_particle scatter) eq_refl eq_refl)
    as (d' & H1 & _ & _ & H2).
  exists d'. split; [exact H1|]. apply H2. lra.
Defined.

(** ** The desired position of an exploded particle *)

Lemma sqrt_le_quarter a : 0 <= a <= 0.0625 -> sqrt a <= 0.25.
Proof.
  intros [H0 H1].
  replace 0.25 with (sqrt (0.25 * 0.25)) by (apply sqrt_square; lra).
  apply sqrt_le_1_alt. lra.
Qed.

(** When exploded, the desired position left in [tempVec] is the base of
    the type of the particle (camera-attached for front, camera-centred for
    surround, the fixed target for scatter) moved by the oscillation, which
    is at most 0.1 along x, at most 0.2 along y and nothing along z: the
    desired position is always within 0.25 of its base.  When gathered it
    is the home. *)
Theorem desired_position_stays_near_base
    (aq : Vector3.t -> Quaternion -> Vector3.t) (state : RootState)
    (w2l : Vector3.t -> Vector3.t) (time : R) (d : Particle) (i : nat) (w : World) :
  let target := tempVec (setTarget aq true state w2l time d i w) in
  let base := archetypeBase aq state w2l (camLocalPos w) d in
  Rabs (Vector3.x target - Vector3.x base) <= 0.1 /\
  Rabs (Vector3.y target - Vector3.y base) <= 0.2 /\
  Vector3.z target = Vector3.z base /\
  Vector3.distanceTo target base <= 0.25 /\
  tempVec (setTarget aq false state w2l time d i w) = home d.
Proof.
  intros target base.
  pose proof (COS_bound (time * 0.5 + INR i * 0.1)) as Hc.
  pose proof (SIN_bound (time + INR i * 0.1)) as Hs.
  assert (Ht : target =
               Vector3.mk (Vector3.x base + cos (time * 0.5 + INR i * 0.1) * 0.1)
                          (Vector3.y base + sin (time + INR i * 0.1) * 0.2)
                          (Vector3.z base)).
  { subst target base. unfold setTarget, archetypeBase. destruct (type d); reflexivity. }
  rewrite Ht. cbn [Vector3.x Vector3.y Vector3.z].
  split; [apply Rabs_le; lra|]. split; [apply Rabs_le; lra|].
  split; [reflexivity|]. split; [|reflexivity].
  unfold Vector3.distanceTo. cbn [Vector3.x Vector3.y Vector3.z]. cbv zeta.
  apply sqrt_le_quarter.
  set (c := cos (time * 0.5 + INR i * 0.1)) in *.
  set (s := sin (time + INR i * 0.1)) in *.
  replace (Vector3.x base + c * 0.1 - Vector3.x base) with (c * 0.1) by lra.
  replace (Vector3.y base + s * 0.2 - Vector3.y base) with (s * 0.2) by lra.
  replace (Vector3.z base - Vector3.z base) with 0 by lra.
  assert (0 <= c * c <= 1) by nra.
  assert (0 <= s * s <= 1) by nra.
  nra.
Qed.

(** ** The mushroom *)

Lemma Rabs_within a b : Rabs a <= b -> - b <= a <= b.
Proof. unfold Rabs. destruct (Rcase_abs a); lra. Qed.

Lemma Mushroom_frames_cons f fs m :
  Mushroom_frames (f :: fs) m =
  Mushroom_frames fs (Mushroom_useFrame (fst (fst f)) (snd (fst f)) (snd f) m).
Proof. destruct f as [[b state] delta]. reflexivity. Qed.

(** One frame of the mushroom group.  A uniform scale [u] stays uniform and
    moves toward 0 when exploded and toward 1 when gathered, by the
    unclamped factor [8 * delta]; the sway about y closes the fraction
    [0.8 * delta] of its gap to [0.1 * sin (t / 2)] when gathered, and an
    exploded frame leaves the rotation as it is.  With
    [0 <= delta <= 1/8] a scale in [0, 1] stays in [0, 1] and a sway within
    0.1 stays within 0.1. *)
Theorem Mushroom_group_frame
    (b : bool) (state : RootState) (delta : R) (m : MushroomRefs)
    (g : Object3D.t) (u : R) :
  groupRef_current m = Some g ->
  Object3D.scale g = Vector3.mk u u u ->
  let goal := if b then 0 else 1 in
  let u' := u + (goal - u) * (delta * 8) in
  let sway := sin (clock_elapsedTime state * 0.5) * 0.1 in
  exists g' : Object3D.t,
    groupRef_current (Mushroom_useFrame b state delta m) = Some g' /\
    Object3D.scale g' = Vector3.mk u' u' u' /\
    u' - goal = (1 - 8 * delta) * (u - goal) /\
    Object3D.position g' = Object3D.position g /\
    ex (Object3D.rotation g') = ex (Object3D.rotation g) /\
    ez (Object3D.rotation g') = ez (Object3D.rotation g) /\
    (b = true -> ey (Object3D.rotation g') = ey (Object3D.rotation g)) /\
    (b = false ->
     ey (Object3D.rotation g') - sway =
     (1 - 0.8 * delta) * (ey (Object3D.rotation g) - sway)) /\
    (0 <= delta <= 1 / 8 ->
     (0 <= u <= 1 -> 0 <= u' <= 1) /\
     (Rabs (ey (Object3D.rotation g)) <= 0.1 ->
      Rabs (ey (Object3D.rotation g')) <= 0.1)).
Proof.
  intros Hg Hs goal u' sway.
  unfold Mushroom_useFrame. rewrite Hg. cbv zeta. cbn [groupRef_current].
  eexists. split; [reflexivity|].
  pose proof (SIN_bound (clock_elapsedTime state * 0.5)) as Hsin.
  destruct b; cbn [negb Object3D.scale Object3D.position Object3D.rotation ex ey ez];
    rewrite Hs; unfold Vector3.lerp; cbn [Vector3.x Vector3.y Vector3.z];
    subst u' goal sway.
  - split; [reflexivity|]. split; [ring|].
    split; [reflexivity|]. split; [reflexivity|]. split; [reflexivity|].
    split; [reflexivity|]. split; [discriminate|].
    intros Hd. split; [intros Hu; nra | intros Hy; assumption].
  - split; [reflexivity|]. split; [ring|].
    split; [reflexivity|]. split; [reflexivity|]. split; [reflexivity|].
    split; [discriminate|].
    split; [intros _; unfold MathUtils.lerp; lra|].
    intros Hd. split; [intros Hu; nra|].
    intros Hy. apply Rabs_within in Hy. apply Rabs_le.
    unfold MathUtils.lerp.
    set (y0 := ey (Object3D.rotation g)) in *.
    set (sn := sin (clock_elapsedTime state * 0.5)) in *.
    nra.
Qed.

Lemma Mushroom_group_frame_witness :
  exists g' : Object3D.t,
    groupRef_current
      (Mushroom_useFrame false (sample_state 1) (1 / 16)
         (mkMushroomRefs
            (Some (Object3D.mk Vector3.zero (mkEuler 0 0.05 0) (Vector3.mk 0 0 0)
                               (Object3D.matrix sample_object)))
            (Some sample_object))) = Some g' /\
    Object3D.scale g' =
      Vector3.mk (0 + (1 - 0) * (1 / 16 * 8)) (0 + (1 - 0) * (1 / 16 * 8))
                 (0 + (1 - 0) * (1 / 16 * 8)) /\
    ey (Object3D.rotation g') - sin (1 * 0.5) * 0.1 =
      (1 - 0.8 * (1 / 16)) * (0.05 - sin (1 * 0.5) * 0.1) /\
    Rabs (ey (Object3D.rotation g')) <= 0.1.
Proof.
  destruct (Mushroom_group_frame false (sample_state 1) (1 / 16)
              (mkMushroomRefs
                 (Some (Object3D.mk Vector3.zero (mkEuler 0 0.05 0) (Vector3.mk 0 0 0)
                                    (Object3D.matrix sample_object)))
                 (Some sample_object))
              (Object3D.mk Vector3.zero (mkEuler 0 0.05 0) (Vector3.mk 0 0 0)
                           (Object3D.matrix sample_object))
              0 eq_refl eq_refl)
    as (g' & H1 & H2 & _ & _ & _ & _ & _ & Hsway & Hkeep).
  exists g'. split; [exact H1|]. split; [exact H2|].
  split; [apply Hsway; reflexivity|].
  apply Hkeep; [lra|]. simpl. apply Rabs_le. lra.
Defined.

(** While the display state is held, the scale of the mushroom closes in on
    its goal (0 exploded, 1 gathered): after frames whose [delta] are in
    [[lo, 1/8]] the gap is at most [(1 - 8 lo) ^ n] of what it was, with
    [n] the number of frames; the scale stays uniform. *)
Theorem Mushroom_scale_converges
    (b : bool) (lo : R) (fs : list (bool * RootState * R)) (m : MushroomRefs)
    (g : Object3D.t) (u : R) :
  0 <= lo ->
  Forall (fun f => fst (fst f) = b /\ lo <= snd f <= 1 / 8) fs ->
  groupRef_current m = Some g ->
  Object3D.scale g = Vector3.mk u u u ->
  let goal := if b then 0 else 1 in
  exists (g' : Object3D.t) (u' : R),
    groupRef_current (Mushroom_frames fs m) = Some g' /\
    Object3D.scale g' = Vector3.mk u' u' u' /\
    Rabs (u' - goal) <= (1 - 8 * lo) ^ List.length fs * Rabs (u - goal).
Proof.
  intros Hlo Hfs. revert m g u.
  induction Hfs as [|f fs [Hb Hd] Hfs IH]; intros m g u Hg Hs goal.
  - exists g, u. cbn [Mushroom_frames fold_left List.length pow].
    repeat split; try assumption. lra.
  - rewrite Mushroom_frames_cons, Hb.
    destruct (Mushroom_group_frame b (snd (fst f)) (snd f) m g u Hg Hs)
      as (g1 & Hg1 & Hs1 & Hgap & _).
    fold goal in Hgap.
    destruct (IH _ g1 _ Hg1 Hs1) as (g' & u' & Hg' & Hs' & Hbound).
    fold goal in Hbound.
    exists g', u'. split; [assumption|]. split; [assumption|].
    apply Rle_trans with (1 := Hbound).
    rewrite Hgap, Rabs_mult. cbn [List.length pow].
    assert (Hq : 0 <= (1 - 8 * lo) ^ List.length fs) by (apply pow_le; lra).
    rewrite (Rabs_pos_eq (1 - 8 * snd f)) by lra.
    pose proof (Rabs_pos (u - goal)).
    replace ((1 - 8 * lo) * (1 - 8 * lo) ^ List.length fs * Rabs (u - goal))
      with ((1 - 8 * lo) ^ List.length fs * ((1 - 8 * lo) * Rabs (u - goal))) by ring.
    apply Rmult_le_compat_l; [assumption|].
    apply Rmult_le_compat_r; [assumption | lra].
Qed.

Lemma Mushroom_scale_converges_witness :
  exists (g' : Object3D.t) (u' : R),
    groupRef_current
      (Mushroom_frames [(true, sample_state 0, 1 / 16); (true, sample_state 0, 1 / 16)]
         (mkMushroomRefs (Some sample_object) None)) = Some g' /\
    Object3D.scale g' = Vector3.mk u' u' u' /\
    Rabs (u' - 0) <= (1 - 8 * (1 / 16)) ^ 2 * Rabs (1 - 0).
Proof.
  apply (Mushroom_scale_converges true (1 / 16)
           [(true, sample_state 0, 1 / 16); (true, sample_state 0, 1 / 16)]
           (mkMushroomRefs (Some sample_object) None) sample_object 1).
  - lra.
  - repeat constructor; simpl; lra.
  - reflexivity.
  - reflexivity.
Defined.

(** The jelly layer, when gathered, is set to the scale
    [(1.08 + w, 1.08 - w, 1.08 + w)] with [w = 0.03 * sin (4 t)], whatever
    its scale was: each component is in [1.05, 1.11], x and z agree, and x
    and y add up to 2.16.  An exploded frame does not touch the jelly. *)
Theorem Mushroom_jelly_wobble
    (b : bool) (state : RootState) (delta : R) (m : MushroomRefs) (jelly : Object3D.t) :
  jellyRef_current m = Some jelly ->
  match jellyRef_current (Mushroom_useFrame b state delta m) with
  | Some jelly' =>
      if b then jelly' = jelly
      else
        let s := Object3D.scale jelly' in
        Vector3.x s = 1.08 + sin (clock_elapsedTime state * 4) * 0.03 /\
        1.05 <= Vector3.x s <= 1.11 /\
        1.05 <= Vector3.y s <= 1.11 /\
        Vector3.z s = Vector3.x s /\
        Vector3.x s + Vector3.y s = 2.16 /\
        Object3D.position jelly' = Object3D.position jelly /\
        Object3D.rotation jelly' = Object3D.rotation jelly
  | None => False
  end.
Proof.
  intros Hj. unfold Mushroom_useFrame. rewrite Hj. cbv zeta. cbn [jellyRef_current].
  destruct b; cbn [negb]; [reflexivity|].
  cbn [Object3D.scale Object3D.position Object3D.rotation Vector3.x Vector3.y Vector3.z].
  pose proof (SIN_bound (clock_elapsedTime state * 4)) as Hs.
  repeat split; try reflexivity; lra.
Qed.

Lemma Mushroom_jelly_wobble_witness :
  exists jelly' : Object3D.t,
    jellyRef_current
      (Mushroom_useFrame false (sample_state 1) (1 / 60)
         (mkMushroomRefs None (Some sample_object))) = Some jelly' /\
    Vector3.x (Object3D.scale jelly') = 1.08 + sin (1 * 4) * 0.03 /\
    1.05 <= Vector3.x (Object3D.scale jelly') <= 1.11 /\
    1.05 <= Vector3.y (Object3D.scale jelly') <= 1.11 /\
    Vector3.x (Object3D.scale jelly') + Vector3.y (Object3D.scale jelly') = 2.16.
Proof.
  pose proof (Mushroom_jelly_wobble false (sample_state 1) (1 / 60)
                (mkMushroomRefs None (Some sample_object)) sample_object eq_refl) as H.
  destruct (jellyRef_current
              (Mushroom_useFrame false (sample_state 1) (1 / 60)
                 (mkMushroomRefs None (Some sample_object)))) as [jelly'|];
    [|contradiction].
  destruct H as (Hx & Hbx & Hby & _ & Hsum & _).
  exists jelly'. repeat split; try reflexivity; try assumption;
    try apply Hbx; try apply Hby.
Defined.

(** ** The fluorescent particles *)

Section FluorescentLoop.

Variable body : FluorescentParticles.particle -> nat ->
                FluorescentParticles.refs -> FluorescentParticles.refs.
Variable M : Euler -> FluorescentParticles.particle -> Matrix4.
Variable Cw : FluorescentParticles.particle -> option Color.t -> option Color.t.
Variable write : Euler -> FluorescentParticles.particle -> nat ->
                 InstancedMesh -> InstancedMesh.

Hypothesis body_spec : forall p i w,
  FluorescentParticles.meshRef_current (body p i w) =
    option_map (write (Object3D.rotation (FluorescentParticles.dummy w)) p i)
               (FluorescentParticles.meshRef_current w) /\
  Object3D.rotation (FluorescentParticles.dummy (body p i w)) =
    Object3D.rotation (FluorescentParticles.dummy w).

Hypothesis write_spec : forall rot p i mesh,
  (forall k, instanceMatrix (write rot p i mesh) k =
             if Nat.eqb k i then Some (M rot p) else instanceMatrix mesh k) /\
  (forall k, colorAt (write rot p i mesh) k =
             if Nat.eqb k i then Cw p (colorAt mesh k) else colorAt mesh k) /\
  instanceMatrix_needsUpdate (write rot p i mesh) = instanceMatrix_needsUpdate mesh /\
  instanceColor_needsUpdate (write rot p i mesh) = instanceColor_needsUpdate mesh.

(** The loop writes the entries [i], ..., [i + length - 1] and no other. *)
Lemma fluorescent_forEach_writes particles : forall i w mesh,
  FluorescentParticles.meshRef_current w = Some mesh ->
  let w' := FluorescentParticles.forEach body particles i w in
  let rot := Object3D.rotation (FluorescentParticles.dummy w) in
  exists mesh',
    FluorescentParticles.meshRef_current w' = Some mesh' /\
    Object3D.rotation (FluorescentParticles.dummy w') = rot /\
    instanceMatrix_needsUpdate mesh' = instanceMatrix_needsUpdate mesh /\
    instanceColor_needsUpdate mesh' = instanceColor_needsUpdate mesh /\
    (forall k, (k < i \/ i + List.length particles <= k)%nat ->
               instanceMatrix mesh' k = instanceMatrix mesh k /\
               colorAt mesh' k = colorAt mesh k) /\
    (forall j p, nth_error particles j = Some p ->
                 instanceMatrix mesh' (i + j)%nat = Some (M rot p) /\
                 colorAt mesh' (i + j)%nat = Cw p (colorAt mesh (i + j)%nat)).
Proof.
  induction particles as [|p0 rest IH]; intros i w mesh Hm w' rot; subst w' rot.
  - cbn [FluorescentParticles.forEach]. exists mesh.
    split; [assumption|]. split; [reflexivity|]. split; [reflexivity|].
    split; [reflexivity|]. split; [intros; split; reflexivity|].
    intros [|j] p H; discriminate.
  - cbn [FluorescentParticles.forEach List.length].
    destruct (body_spec p0 i w) as [Hb Hr]. rewrite Hm in Hb. cbn [option_map] in Hb.
    destruct (IH (S i) _ _ Hb) as (mesh' & Hm' & Hr' & Hf1 & Hf2 & Hout & Hin).
    destruct (write_spec (Object3D.rotation (FluorescentParticles.dummy w)) p0 i mesh)
      as (Wm & Wc & Wf1 & Wf2).
    exists mesh'. split; [assumption|]. split; [congruence|].
    split; [congruence|]. split; [congruence|]. split.
    + intros k Hk. destruct (Hout k) as [H1 H2]; [lia|].
      rewrite H1, H2, Wm, Wc.
      destruct (Nat.eqb_spec k i); [lia|]. split; reflexivity.
    + intros [|j] p Hp; cbn [nth_error] in Hp.
      * injection Hp as <-. rewrite Nat.add_0_r.
        destruct (Hout i) as [H1 H2]; [lia|].
        rewrite H1, H2, Wm, Wc, Nat.eqb_refl. split; reflexivity.
      * replace (i + S j)%nat with (S i + j)%nat by lia.
        destruct (Hin j p Hp) as [H1 H2].
        rewrite H1, H2, Hr, Wc.
        destruct (Nat.eqb_spec (S i + j) i); [lia|]. split; reflexivity.
Qed.

End FluorescentLoop.

Lemma colorAt_setMatrixAt i m mesh k : colorAt (setMatrixAt i m mesh) k = colorAt mesh k.
Proof. reflexivity. Qed.

Lemma colorAt_setColorAt i c mesh k :
  colorAt (setColorAt i c mesh) k = if Nat.eqb k i then Some c else colorAt mesh k.
Proof.
  unfold colorAt, setColorAt. cbn [instanceColor].
  destruct (Nat.eqb k i); [reflexivity|].
  destruct (instanceColor mesh); reflexivity.
Qed.

(** The write of the frame loop and the write of the layout loop. *)
Lemma fluorescent_frame_body_spec time p i w :
  FluorescentParticles.meshRef_current (FluorescentParticles.frame_body time p i w) =
    option_map
      (setMatrixAt i (FluorescentParticles.frameMatrix time
                        (Object3D.rotation (FluorescentParticles.dummy w)) p))
      (FluorescentParticles.meshRef_current w) /\
  Object3D.rotation (FluorescentParticles.dummy (FluorescentParticles.frame_body time p i w)) =
    Object3D.rotation (FluorescentParticles.dummy w).
Proof.
  unfold FluorescentParticles.frame_body, FluorescentParticles.on_mesh. cbn.
  destruct (FluorescentParticles.meshRef_current w); split; reflexivity.
Qed.

Lemma fluorescent_layout_body_spec p i w :
  FluorescentParticles.meshRef_current (FluorescentParticles.layout_body p i w) =
    option_map
      (fun mesh =>
         setColorAt i (FluorescentParticles.color p)
           (setMatrixAt i
              (compose (FluorescentParticles.position p)
                       (Object3D.rotation (FluorescentParticles.dummy w))
                       (Vector3.mk (FluorescentParticles.scale p)
                                   (FluorescentParticles.scale p)
                                   (FluorescentParticles.scale p)))
              mesh))
      (FluorescentParticles.meshRef_current w) /\
  Object3D.rotation (FluorescentParticles.dummy (FluorescentParticles.layout_body p i w)) =
    Object3D.rotation (FluorescentParticles.dummy w).
Proof.
  unfold FluorescentParticles.layout_body, FluorescentParticles.on_mesh. cbn.
  destruct (FluorescentParticles.meshRef_current w); split; reflexivity.
Qed.

Lemma fluorescent_useFrame_spec state particles w mesh :
  FluorescentParticles.meshRef_current w = Some mesh ->
  let w' := FluorescentParticles.useFrame state particles w in
  let rot := Object3D.rotation (FluorescentParticles.dummy w) in
  exists mesh',
    FluorescentParticles.meshRef_current w' = Some mesh' /\
    Object3D.rotation (FluorescentParticles.dummy w') = rot /\
    instanceMatrix_needsUpdate mesh' = true /\
    instanceColor_needsUpdate mesh' = instanceColor_needsUpdate mesh /\
    (forall k, colorAt mesh' k = colorAt mesh k) /\
    (forall k, (List.length particles <= k)%nat ->
               instanceMatrix mesh' k = instanceMatrix mesh k) /\
    (forall j p, nth_error particles j = Some p ->
                 instanceMatrix mesh' j =
                 Some (FluorescentParticles.frameMatrix (clock_elapsedTime state) rot p)).
Proof.
  intros Hm w' rot. subst w' rot.
  unfold FluorescentParticles.useFrame. rewrite Hm.
  destruct (fluorescent_forEach_writes
              (FluorescentParticles.frame_body (clock_elapsedTime state))
              (FluorescentParticles.frameMatrix (clock_elapsedTime state))
              (fun _ old => old)
              (fun rot p i => setMatrixAt i
                 (FluorescentParticles.frameMatrix (clock_elapsedTime state) rot p))
              (fluorescent_frame_body_spec (clock_elapsedTime state)))
    with (particles := particles) (i := 0%nat) (w := w) (mesh := mesh)
    as (mesh' & Hm' & Hr & Hf1 & Hf2 & Hout & Hin).
  { intros rot p i mesh0. repeat split; try reflexivity.
    intros k. rewrite colorAt_setMatrixAt. destruct (Nat.eqb k i); reflexivity. }
  { assumption. }
  exists (FluorescentParticles.markMatrixNeedsUpdate mesh').
  unfold FluorescentParticles.on_mesh. cbn [FluorescentParticles.meshRef_current
                                            FluorescentParticles.dummy].
  rewrite Hm'. cbn [option_map].
  split; [reflexivity|]. split; [assumption|]. split; [reflexivity|].
  split; [assumption|]. split; [|split].
  - intros k. change (colorAt (FluorescentParticles.markMatrixNeedsUpdate mesh') k)
      with (colorAt mesh' k).
    destruct (Nat.lt_ge_cases k (List.length particles)) as [Hk | Hk].
    + destruct (nth_error particles k) as [p|] eqn:Hp;
        [|apply nth_error_None in Hp; lia].
      destruct (Hin k p Hp) as [_ Hc]. exact Hc.
    + destruct (Hout k) as [_ Hc]; [lia | exact Hc].
  - intros k Hk. destruct (Hout k) as [Hmx _]; [lia | exact Hmx].
  - intros j p Hp. destruct (Hin j p Hp) as [Hmx _]. exact Hmx.
Qed.

Lemma fluorescent_frames_cons state states particles w :
  FluorescentParticles.frames (state :: states) particles w =
  FluorescentParticles.frames states particles
    (FluorescentParticles.useFrame state particles w).
Proof. reflexivity. Qed.

Lemma fluorescent_frames_snoc states state particles w :
  FluorescentParticles.frames (states ++ [state]) particles w =
  FluorescentParticles.useFrame state particles
    (FluorescentParticles.frames states particles w).
Proof. unfold FluorescentParticles.frames. rewrite fold_left_app. reflexivity. Qed.

Lemma fluorescent_frames_keep states particles : forall w mesh,
  FluorescentParticles.meshRef_current w = Some mesh ->
  let w' := FluorescentParticles.frames states particles w in
  exists mesh',
    FluorescentParticles.meshRef_current w' = Some mesh' /\
    Object3D.rotation (FluorescentParticles.dummy w') =
      Object3D.rotation (FluorescentParticles.dummy w) /\
    (forall k, colorAt mesh' k = colorAt mesh k) /\
    (forall k, (List.length particles <= k)%nat ->
               instanceMatrix mesh' k = instanceMatrix mesh k).
Proof.
  induction states as [|state states IH]; intros w mesh Hm w'; subst w'.
  - exists mesh. cbn. auto.
  - rewrite fluorescent_frames_cons.
    destruct (fluorescent_useFrame_spec state particles w mesh Hm)
      as (mesh1 & Hm1 & Hr1 & _ & _ & Hc1 & Ho1 & _).
    destruct (IH _ _ Hm1) as (mesh' & Hm' & Hr' & Hc' & Ho').
    exists mesh'. split; [assumption|]. split; [congruence|].
    split; intros k; [rewrite Hc'; apply Hc1 | intros Hk; rewrite Ho', Ho1; auto].
Qed.

Lemma fluorescent_layout_spec particles w mesh :
  FluorescentParticles.meshRef_current w = Some mesh ->
  let w' := FluorescentParticles.useLayoutEffect particles w in
  let rot := Object3D.rotation (FluorescentParticles.dummy w) in
  exists mesh',
    FluorescentParticles.meshRef_current w' = Some mesh' /\
    Object3D.rotation (FluorescentParticles.dummy w') = rot /\
    (forall j p, nth_error particles j = Some p ->
       instanceMatrix mesh' j =
         Some (compose (FluorescentParticles.position p) rot
                       (Vector3.mk (FluorescentParticles.scale p)
                                   (FluorescentParticles.scale p)
                                   (FluorescentParticles.scale p))) /\
       colorAt mesh' j = Some (FluorescentParticles.color p)).
Proof.
  intros Hm w' rot. subst w' rot.
  unfold FluorescentParticles.useLayoutEffect. rewrite Hm.
  destruct (fluorescent_forEach_writes
              FluorescentParticles.layout_body
              (fun rot p => compose (FluorescentParticles.position p) rot
                              (Vector3.mk (FluorescentParticles.scale p)
                                          (FluorescentParticles.scale p)
                                          (FluorescentParticles.scale p)))
              (fun p _ => Some (FluorescentParticles.color p))
              (fun rot p i mesh =>
                 setColorAt i (FluorescentParticles.color p)
                   (setMatrixAt i
                      (compose (FluorescentParticles.position p) rot
                         (Vector3.mk (FluorescentParticles.scale p)
                                     (FluorescentParticles.scale p)
                                     (FluorescentParticles.scale p)))
                      mesh))
              fluorescent_layout_body_spec)
    with (particles := particles) (i := 0%nat) (w := w) (mesh := mesh)
    as (mesh' & Hm' & Hr & _ & _ & _ & Hin).
  { intros rot p i mesh0. repeat split; try reflexivity.
    intros k. rewrite colorAt_setColorAt, colorAt_setMatrixAt. reflexivity. }
  { assumption. }
  exists (markNeedsUpdate mesh').
  unfold FluorescentParticles.on_mesh. cbn [FluorescentParticles.meshRef_current
                                            FluorescentParticles.dummy].
  rewrite Hm'. cbn [option_map].
  split; [reflexivity|]. split; [assumption|].
  intros j p Hp. destruct (Hin j p Hp) as [H1 H2]. split; assumption.
Qed.

(** A frame of the fluorescent particles writes, for each particle, a
    matrix that depends on the time of the frame and on the particle only:
    its position is the base position moved by at most 0.01 along x and
    0.03 along y, its scale is uniform and within 30 % of the scale of the
    particle, and its rotation is the one of the scratch object.  The frame
    marks the matrices for upload, changes no colour, and does nothing
    while the mesh is not mounted. *)
Theorem fluorescent_frame_bounces_about_base
    (state : RootState) (particles : list FluorescentParticles.particle)
    (w : FluorescentParticles.refs) (j : nat) (p : FluorescentParticles.particle) :
  nth_error particles j = Some p ->
  let w' := FluorescentParticles.useFrame state particles w in
  match FluorescentParticles.meshRef_current w with
  | None => w' = w
  | Some mesh =>
      exists (mesh' : InstancedMesh) (pos : Vector3.t) (s : R),
        FluorescentParticles.meshRef_current w' = Some mesh' /\
        instanceMatrix mesh' j =
          Some (compose pos (Object3D.rotation (FluorescentParticles.dummy w))
                        (Vector3.mk s s s)) /\
        Rabs (Vector3.x pos - Vector3.x (FluorescentParticles.basePos p)) <= 0.01 /\
        Rabs (Vector3.y pos - Vector3.y (FluorescentParticles.basePos p)) <= 0.03 /\
        Vector3.z pos = Vector3.z (FluorescentParticles.basePos p) /\
        (0 <= FluorescentParticles.scale p ->
         0.7 * FluorescentParticles.scale p <= s <= 1.3 * FluorescentParticles.scale p) /\
        (forall k, colorAt mesh' k = colorAt mesh k) /\
        instanceMatrix_needsUpdate mesh' = true /\
        instanceColor_needsUpdate mesh' = instanceColor_needsUpdate mesh
  end.
Proof.
  intros Hp w'. subst w'.
  destruct (FluorescentParticles.meshRef_current w) as [mesh|] eqn:Hm.
  - destruct (fluorescent_useFrame_spec state particles w mesh Hm)
      as (mesh' & Hm' & _ & Hf1 & Hf2 & Hc & _ & Hin).
    pose proof (SIN_bound (clock_elapsedTime state * 3 + FluorescentParticles.phase p)).
    pose proof (COS_bound (clock_elapsedTime state * 2 + FluorescentParticles.phase p)).
    pose proof (SIN_bound (clock_elapsedTime state * 4 + FluorescentParticles.phase p)).
    eexists mesh', _, _. split; [exact Hm'|].
    split; [rewrite (Hin j p Hp); unfold FluorescentParticles.frameMatrix; reflexivity|].
    cbn [Vector3.x Vector3.y Vector3.z].
    split; [apply Rabs_le; lra|]. split; [apply Rabs_le; lra|].
    split; [reflexivity|]. split; [intros Hs; nra|].
    split; [assumption|]. split; assumption.
  - unfold FluorescentParticles.useFrame. rewrite Hm. reflexivity.
Qed.

Lemma fluorescent_frame_bounces_about_base_witness :
  exists (mesh' : InstancedMesh) (pos : Vector3.t) (s : R),
    FluorescentParticles.meshRef_current
      (FluorescentParticles.useFrame (sample_state 1)
         [FluorescentParticles.mk (Vector3.mk 0 1.6 0) (Color.mk 1 1 1) 1 0 1
                                  (Vector3.mk 0 1.6 0)]
         (FluorescentParticles.mkRefs sample_object (Some sample_mesh))) = Some mesh' /\
    instanceMatrix mesh' 0%nat =
      Some (compose pos (mkEuler 0 0 0) (Vector3.mk s s s)) /\
    Rabs (Vector3.x pos - 0) <= 0.01 /\
    Rabs (Vector3.y pos - 1.6) <= 0.03 /\
    Vector3.z pos = 0 /\
    0.7 * 1 <= s <= 1.3 * 1 /\
    instanceMatrix_needsUpdate mesh' = true.
Proof.
  destruct (fluorescent_frame_bounces_about_base (sample_state 1)
              [FluorescentParticles.mk (Vector3.mk 0 1.6 0) (Color.mk 1 1 1) 1 0 1
                                       (Vector3.mk 0 1.6 0)]
              (FluorescentParticles.mkRefs sample_object (Some sample_mesh)) 0
              (FluorescentParticles.mk (Vector3.mk 0 1.6 0) (Color.mk 1 1 1) 1 0 1
                                       (Vector3.mk 0 1.6 0))
              eq_refl)
    as (mesh' & pos & s & H1 & H2 & Hx & Hy & Hz & Hs & _ & Hf & _).
  exists mesh', pos, s.
  split; [exact H1|]. split; [exact H2|]. split; [exact Hx|]. split; [exact Hy|].
  split; [exact Hz|]. split; [apply Hs; simpl; lra | exact Hf].
Defined.

(** The layout effect writes the colour of every particle once; the frames
    that follow never write a colour, so after any number of frames the
    buffer still holds the colour of each particle.  The matrix of a
    particle is the one of the last frame (it depends on no earlier frame),
    and before the first frame it is the one the layout effect wrote: the
    position of the particle at its own scale. *)
Theorem fluorescent_colors_survive_frames
    (states : list RootState) (particles : list FluorescentParticles.particle)
    (w : FluorescentParticles.refs) (mesh : InstancedMesh)
    (j : nat) (p : FluorescentParticles.particle) :
  FluorescentParticles.meshRef_current w = Some mesh ->
  nth_error particles j = Some p ->
  let w' :=
    FluorescentParticles.frames states particles
      (FluorescentParticles.useLayoutEffect particles w) in
  let rot := Object3D.rotation (FluorescentParticles.dummy w) in
  exists mesh' : InstancedMesh,
    FluorescentParticles.meshRef_current w' = Some mesh' /\
    colorAt mesh' j = Some (FluorescentParticles.color p) /\
    instanceMatrix mesh' j =
      Some match rev states with
           | [] =>
               compose (FluorescentParticles.position p) rot
                       (Vector3.mk (FluorescentParticles.scale p)
                                   (FluorescentParticles.scale p)
                                   (FluorescentParticles.scale p))
           | last :: _ =>
               FluorescentParticles.frameMatrix (clock_elapsedTime last) rot p
           end.
Proof.
  intros Hm Hp w' rot. subst w' rot.
  destruct (fluorescent_layout_spec particles w mesh Hm)
    as (mesh1 & Hm1 & Hr1 & Hin1).
  destruct (Hin1 j p Hp) as [Hmx1 Hc1].
  destruct states as [|state states] using rev_ind.
  - exists mesh1. cbn [FluorescentParticles.frames fold_left rev].
    repeat split; assumption.
  - clear IHstates.
    rewrite fluorescent_frames_snoc, rev_app_distr. cbn [rev app].
    destruct (fluorescent_frames_keep states particles _ _ Hm1)
      as (mesh2 & Hm2 & Hr2 & Hc2 & _).
    destruct (fluorescent_useFrame_spec state particles _ _ Hm2)
      as (mesh' & Hm' & _ & _ & _ & Hc & _ & Hin).
    exists mesh'. split; [assumption|].
    split; [rewrite Hc, Hc2; assumption|].
    rewrite (Hin j p Hp), Hr2, Hr1. reflexivity.
Qed.

Lemma fluorescent_colors_survive_frames_witness :
  exists mesh' : InstancedMesh,
    FluorescentParticles.meshRef_current
      (FluorescentParticles.frames [sample_state 0; sample_state 1]
         [FluorescentParticles.mk Vector3.zero (Color.mk 1 0 1) 1 0 1 Vector3.zero]
         (FluorescentParticles.useLayoutEffect
            [FluorescentParticles.mk Vector3.zero (Color.mk 1 0 1) 1 0 1 Vector3.zero]
            (FluorescentParticles.mkRefs sample_object (Some sample_mesh)))) =
    Some mesh' /\
    colorAt mesh' 0 = Some (Color.mk 1 0 1).
Proof.
  destruct (fluorescent_colors_survive_frames [sample_state 0; sample_state 1]
              [FluorescentParticles.mk Vector3.zero (Color.mk 1 0 1) 1 0 1 Vector3.zero]
              (FluorescentParticles.mkRefs sample_object (Some sample_mesh))
              sample_mesh 0
              (FluorescentParticles.mk Vector3.zero (Color.mk 1 0 1) 1 0 1 Vector3.zero)
              eq_refl eq_refl) as (mesh' & H1 & H2 & _).
  exists mesh'. split; assumption.
Defined.

Section FluorescentCreation.

Variable random : RandomSource.
Variable THREE_Color : string -> Color.t.

Lemma fluorescent_createParticle_fields n :
  let r := 1.52 + random n * 0.12 in
  let theta := 2 * PI * random (S n) in
  let phiClamped := random (S (S (S (S n)))) * (PI / 2 - 0.1) in
  let pos := Vector3.mk (r * sin phiClamped * cos theta) (r * cos phiClamped)
                        (r * sin phiClamped * sin theta) in
  FluorescentParticles.createParticle random THREE_Color n =
  (FluorescentParticles.mk pos
     (THREE_Color
        (nth (Math_floor (random (n + 5)%nat *
                          INR (List.length FluorescentParticles.neonColors)))
             FluorescentParticles.neonColors EmptyString))
     (0.5 + random (n + 6)%nat * 1.0)
     (random (n + 7)%nat * PI * 2)
     (0.5 + random (n + 8)%nat * 0.5)
     pos,
   (n + 9)%nat).
Proof.
  cbv zeta. unfold FluorescentParticles.createParticle, bind, Math_random, ret.
  replace (n + 5)%nat with (S (S (S (S (S n))))) by lia.
  replace (n + 6)%nat with (S (S (S (S (S (S n)))))) by lia.
  replace (n + 7)%nat with (S (S (S (S (S (S (S n))))))) by lia.
  replace (n + 8)%nat with (S (S (S (S (S (S (S (S n)))))))) by lia.
  replace (n + 9)%nat with (S (S (S (S (S (S (S (S (S n))))))))) by lia.
  reflexivity.
Qed.

Lemma fluorescent_createParticles_S c n :
  FluorescentParticles.createParticles random THREE_Color (S c) n =
  let r := FluorescentParticles.createParticle random THREE_Color n in
  let rest := FluorescentParticles.createParticles random THREE_Color c (snd r) in
  (fst r :: fst rest, snd rest).
Proof.
  cbn [FluorescentParticles.createParticles]. unfold bind, ret.
  destruct (FluorescentParticles.createParticle random THREE_Color n) as [p n1].
  cbn [fst snd].
  destruct (FluorescentParticles.createParticles random THREE_Color c n1) as [temp n2].
  reflexivity.
Qed.

(** [createParticles count] makes [count] fluorescent particles with nine
    draws each.  Every particle sits in the shell between the radii 1.52
    and 1.64, strictly above the plane y = 0; its base position is its
    position; its scale is in [0.5, 1.5), its phase in [0, 2 PI), its speed
    in [0.5, 1), and its colour is one of the six neon colours. *)
Theorem fluorescent_particles_created (c n : nat) :
  let r := FluorescentParticles.createParticles random THREE_Color c n in
  List.length (fst r) = c /\
  snd r = (n + 9 * c)%nat /\
  Forall
    (fun p =>
       FluorescentParticles.basePos p = FluorescentParticles.position p /\
       1.52 <= Vector3.length (FluorescentParticles.position p) < 1.64 /\
       0 < Vector3.y (FluorescentParticles.position p) /\
       0.5 <= FluorescentParticles.scale p < 1.5 /\
       0 <= FluorescentParticles.phase p < 2 * PI /\
       0.5 <= FluorescentParticles.speed p < 1 /\
       In (FluorescentParticles.color p)
          (map THREE_Color FluorescentParticles.neonColors))
    (fst r).
Proof.
  revert n. induction c as [|c IH]; intros n r; subst r.
  - cbn. repeat split; try lia. constructor.
  - rewrite fluorescent_createParticles_S. cbv zeta.
    rewrite fluorescent_createParticle_fields. cbv zeta. cbn [fst snd List.length].
    destruct (IH (n + 9)%nat) as (Hl & Hn & Hf).
    split; [congruence|]. split; [lia|].
    constructor; [|exact Hf].
    cbn [FluorescentParticles.basePos FluorescentParticles.position
         FluorescentParticles.scale FluorescentParticles.phase
         FluorescentParticles.speed FluorescentParticles.color].
    pose proof (draw_range (random n)) as H0.
    pose proof (draw_range (random (S (S (S (S n)))))) as H4.
    pose proof (draw_range (random (n + 5)%nat)) as H5.
    pose proof (draw_range (random (n + 6)%nat)) as H6.
    pose proof (draw_range (random (n + 7)%nat)) as H7.
    pose proof (draw_range (random (n + 8)%nat)) as H8.
    pose proof PI_RGT_0 as Hpi. pose proof PI2_1 as Hpi2.
    set (r := 1.52 + random n * 0.12) in *.
    set (theta := 2 * PI * random (S n)).
    set (phi := random (S (S (S (S n)))) * (PI / 2 - 0.1)).
    assert (Hr : 1.52 <= r < 1.64) by (unfold r; lra).
    split; [reflexivity|]. split; [|split; [|split; [|split; [|split]]]].
    + unfold Vector3.length. cbn [Vector3.x Vector3.y Vector3.z].
      rewrite (sphere_norm r (sin phi) (cos phi) (sin theta) (cos theta))
        by apply sin_cos_unit.
      rewrite sqrt_square by lra. assumption.
    + cbn [Vector3.y].
      assert (Hphi : 0 <= phi < PI / 2 - 0.1) by (unfold phi; nra).
      assert (0 < cos phi) by (apply cos_gt_0; lra).
      nra.
    + lra.
    + nra.
    + lra.
    + apply in_map. apply nth_In. apply Math_floor_index; [assumption | cbn; lia].
Qed.

End FluorescentCreation.

(** ** What a frame depends on *)

Section FrameDependence.

Variable random : RandomSource.

(** A gathered frame moves the particles by [delta] and the jitter alone:
    neither the camera, nor the transform of the mesh, nor the clock, nor
    the look vector enters the new positions. *)
Theorem gathered_frame_ignores_camera_and_clock
    (aq aq' : Vector3.t -> Quaternion -> Vector3.t) (state state' : RootState)
    (delta : R) (w2l w2l' : Vector3.t -> Vector3.t)
    (particles : list Particle) (w : World) :
  fst (HeartParticles_useFrame random aq false state delta w2l particles w) =
  fst (HeartParticles_useFrame random aq' false state' delta w2l' particles w).
Proof.
  destruct (meshRef_current w) as [mesh|] eqn:Hm.
  - apply nth_error_ext. intros j.
    destruct (nth_error particles j) as [d|] eqn:Hd.
    + rewrite !(useFrame_nth random _ false _ delta _ particles w mesh j d Hm Hd).
      reflexivity.
    + apply nth_error_None in Hd.
      rewrite !(proj2 (nth_error_None _ _)); [reflexivity | |].
      * rewrite (useFrame_mounted _ _ _ _ _ _ _ _ _ Hm). cbn [fst].
        rewrite forEach_length. assumption.
      * rewrite (useFrame_mounted _ _ _ _ _ _ _ _ _ Hm). cbn [fst].
        rewrite forEach_length. assumption.
  - rewrite !useFrame_unmounted by assumption. reflexivity.
Qed.

(** An exploded surround particle follows the position of the camera and
    not its orientation: it moves toward the camera position in the frame
    of the mesh plus its offset plus the oscillation, and two frames that
    differ only in the orientation of the camera leave it at the same
    place. *)
Theorem surround_ignores_camera_orientation
    (aq aq' : Vector3.t -> Quaternion -> Vector3.t) (state state' : RootState)
    (delta : R) (w2l : Vector3.t -> Vector3.t)
    (particles : list Particle) (w : World) (mesh : InstancedMesh)
    (j : nat) (d : Particle) :
  meshRef_current w = Some mesh ->
  nth_error particles j = Some d ->
  type d = surround ->
  clock_elapsedTime state' = clock_elapsedTime state ->
  camera_position state' = camera_position state ->
  exists d' : Particle,
    nth_error (fst (HeartParticles_useFrame random aq true state delta w2l particles w)) j =
    Some d' /\
    nth_error (fst (HeartParticles_useFrame random aq' true state' delta w2l particles w)) j =
    Some d' /\
    currentPos d' =
    Vector3.lerp (currentPos d)
      (oscillation (clock_elapsedTime state) j
         (Vector3.add (w2l (camera_position state)) (offset d)))
      (lerpFactor delta 3 (random (draws w + j)%nat)).
Proof.
  intros Hm Hd Ht Htime Hpos.
  exists (movedParticle random aq true state delta w2l w d j).
  split; [eapply useFrame_nth; eassumption|].
  split.
  - rewrite (useFrame_nth random aq' true state' delta w2l particles w mesh j d Hm Hd).
    unfold movedParticle, desiredPosition. rewrite Ht, Htime, Hpos. reflexivity.
  - unfold movedParticle, desiredPosition. rewrite Ht. reflexivity.
Qed.

End FrameDependence.

Lemma surround_ignores_camera_orientation_witness :
  exists d' : Particle,
    nth_error
      (fst (HeartParticles_useFrame halves identityQuaternion true (sample_state 0)
              (1 / 60) (fun v => v) [sample_particle surround] sample_world)) 0 =
    Some d' /\
    nth_error
      (fst (HeartParticles_useFrame halves identityQuaternion true
              (mkRootState 0 (Vector3.mk 0 2 7) (mkQuaternion 0 1 0 0)
                           (Vector2.mk 0 0))
              (1 / 60) (fun v => v) [sample_particle surround] sample_world)) 0 =
    Some d'.
Proof.
  destruct (surround_ignores_camera_orientation halves
              identityQuaternion identityQuaternion (sample_state 0)
              (mkRootState 0 (Vector3.mk 0 2 7) (mkQuaternion 0 1 0 0) (Vector2.mk 0 0))
              (1 / 60) (fun v => v) [sample_particle surround] sample_world
              sample_mesh 0 (sample_particle surround)
              eq_refl eq_refl eq_refl eq_refl eq_refl)
    as (d' & H1 & H2 & _).
  exists d'. split; assumption.
Defined.

(** ** Scatter particles settle near their targets *)

(** One coordinate of a step toward a target that stays within [c] of a
    fixed point [f]: the excess of the distance to [f] over [c] shrinks. *)
Lemma lerp_component_gap p t f a c lo :
  0 < lo -> lo <= a <= 1 -> Rabs (t - f) <= c ->
  Rmax 0 (Rabs (p + (t - p) * a - f) - c) <= (1 - lo) * Rmax 0 (Rabs (p - f) - c).
Proof.
  intros Hlo Ha Ht.
  assert (H1 : Rabs (p + (t - p) * a - f) <= (1 - a) * Rabs (p - f) + a * c).
  { replace (p + (t - p) * a - f) with ((1 - a) * (p - f) + a * (t - f)) by ring.
    eapply Rle_trans; [apply Rabs_triang|].
    rewrite !Rabs_mult, (Rabs_pos_eq (1 - a)), (Rabs_pos_eq a) by lra.
    apply Rplus_le_compat_l. apply Rmult_le_compat_l; lra. }
  pose proof (Rabs_pos (p - f)) as HA.
  set (A := Rabs (p - f)) in *. set (B := Rabs (p + (t - p) * a - f)) in *.
  unfold Rmax.
  destruct (Rle_dec 0 (B - c)); destruct (Rle_dec 0 (A - c)); nra.
Qed.

Lemma Rmax_gap_bound e c q g :
  0 <= q -> 0 <= e -> 0 <= c ->
  Rmax 0 (g - c) <= q * Rmax 0 (e - c) -> g <= c + q * e.
Proof.
  intros Hq He Hc. unfold Rmax.
  destruct (Rle_dec 0 (g - c)); destruct (Rle_dec 0 (e - c)); nra.
Qed.

Section ScatterSettles.

Variable random : RandomSource.
Variable aq : Vector3.t -> Quaternion -> Vector3.t.
Variable lo : R.
Hypothesis lo_pos : 0 < lo.

Local Abbreviation gap c v f := (Rmax 0 (Rabs (v - f) - c)).

Lemma exploded_step_scatter e s j d mesh :
  explodeFrame lo e ->
  isExploded (app s) = true ->
  meshRef_current (world s) = Some mesh ->
  nth_error (data s) j = Some d ->
  type d = scatter ->
  let s' := step random aq e s in
  let f := fixedTarget d in
  isExploded (app s') = true /\
  (exists mesh', meshRef_current (world s') = Some mesh') /\
  exists d',
    nth_error (data s') j = Some d' /\
    type d' = scatter /\
    fixedTarget d' = f /\
    gap 0.1 (Vector3.x (currentPos d')) (Vector3.x f) <=
      (1 - lo) * gap 0.1 (Vector3.x (currentPos d)) (Vector3.x f) /\
    gap 0.2 (Vector3.y (currentPos d')) (Vector3.y f) <=
      (1 - lo) * gap 0.2 (Vector3.y (currentPos d)) (Vector3.y f) /\
    gap 0 (Vector3.z (currentPos d')) (Vector3.z f) <=
      (1 - lo) * gap 0 (Vector3.z (currentPos d)) (Vector3.z f).
Proof.
  intros He Hb Hm Hd Ht s' f. subst s' f.
  destruct e as [i | state delta w2l]; [contradiction|].
  rewrite step_frame. cbn [app world data]. rewrite Hb.
  split; [reflexivity|].
  split; [eapply useFrame_stays_mounted; eassumption|].
  exists (movedParticle random aq true state delta w2l (world s) d j).
  split; [eapply useFrame_nth; eassumption|].
  split; [exact Ht|]. split; [reflexivity|].
  unfold movedParticle. cbn [currentPos set_currentPos].
  rewrite desiredPosition_scatter by assumption.
  specialize (He (random (draws (world s) + j)%nat)).
  unfold oscillation, Vector3.lerp. cbn [Vector3.x Vector3.y Vector3.z].
  pose proof (COS_bound (clock_elapsedTime state * 0.5 + INR j * 0.1)).
  pose proof (SIN_bound (clock_elapsedTime state + INR j * 0.1)).
  split; [|split]; apply lerp_component_gap; try assumption; apply Rabs_le; lra.
Qed.

(** While the state stays exploded, a scatter particle closes in on its
    fixed target up to the oscillation: after [n] frames whose factors lie
    in [[lo, 1]], each coordinate is within [(1 - lo) ^ n] of its first
    distance plus the amplitude of the oscillation (0.1 along x, 0.2 along
    y, none along z).  The target itself does not change. *)
Theorem exploded_scatter_settles_near_target
    (es : list Event) (s : Scene) (j : nat) (d : Particle) (mesh : InstancedMesh) :
  Forall (explodeFrame lo) es ->
  isExploded (app s) = true ->
  meshRef_current (world s) = Some mesh ->
  nth_error (data s) j = Some d ->
  type d = scatter ->
  let f := fixedTarget d in
  let q := (1 - lo) ^ List.length es in
  exists d' : Particle,
    nth_error (data (run random aq es s)) j = Some d' /\
    fixedTarget d' = f /\
    Rabs (Vector3.x (currentPos d') - Vector3.x f) <=
      0.1 + q * Rabs (Vector3.x (currentPos d) - Vector3.x f) /\
    Rabs (Vector3.y (currentPos d') - Vector3.y f) <=
      0.2 + q * Rabs (Vector3.y (currentPos d) - Vector3.y f) /\
    Rabs (Vector3.z (currentPos d') - Vector3.z f) <=
      q * Rabs (Vector3.z (currentPos d) - Vector3.z f).
Proof.
  intros Hes Hb Hm Hd Ht f q.
  assert (Hgap : exists d',
             nth_error (data (run random aq es s)) j = Some d' /\
             fixedTarget d' = f /\
             gap 0.1 (Vector3.x (currentPos d')) (Vector3.x f) <=
               q * gap 0.1 (Vector3.x (currentPos d)) (Vector3.x f) /\
             gap 0.2 (Vector3.y (currentPos d')) (Vector3.y f) <=
               q * gap 0.2 (Vector3.y (currentPos d)) (Vector3.y f) /\
             gap 0 (Vector3.z (currentPos d')) (Vector3.z f) <=
               q * gap 0 (Vector3.z (currentPos d)) (Vector3.z f) /\
             0 <= q).
  { subst f q. revert s d mesh Hb Hm Hd Ht.
    induction Hes as [|e es He Hes IH]; intros s d mesh Hb Hm Hd Ht.
    - exists d. cbn [run fold_left List.length pow].
      repeat split; try assumption; lra.
    - destruct (exploded_step_scatter e s j d mesh He Hb Hm Hd Ht)
        as (Hb1 & (mesh1 & Hm1) & d1 & Hd1 & Ht1 & Hf1 & Hx1 & Hy1 & Hz1).
      destruct (IH _ _ _ Hb1 Hm1 Hd1 Ht1) as (d' & Hd' & Hf' & Hx & Hy & Hz & Hq).
      rewrite Hf1 in Hf', Hx, Hy, Hz.
      assert (Hlo1 : lo <= 1).
      { destruct e as [i | state delta w2l]; [contradiction|].
        specialize (He draw_half). lra. }
      exists d'. rewrite run_cons. cbn [List.length pow].
      split; [assumption|]. split; [assumption|].
      repeat split.
      + apply Rle_trans with (1 := Hx).
        rewrite (Rmult_comm (1 - lo)), Rmult_assoc.
        apply Rmult_le_compat_l; assumption.
      + apply Rle_trans with (1 := Hy).
        rewrite (Rmult_comm (1 - lo)), Rmult_assoc.
        apply Rmult_le_compat_l; assumption.
      + apply Rle_trans with (1 := Hz).
        rewrite (Rmult_comm (1 - lo)), Rmult_assoc.
        apply Rmult_le_compat_l; assumption.
      + apply Rmult_le_pos; lra. }
  destruct Hgap as (d' & Hd' & Hf' & Hx & Hy & Hz & Hq).
  exists d'. split; [assumption|]. split; [assumption|].
  split; [|split].
  - apply Rmax_gap_bound; try assumption; try lra. apply Rabs_pos.
  - apply Rmax_gap_bound; try assumption; try lra. apply Rabs_pos.
  - replace (q * Rabs (Vector3.z (currentPos d) - Vector3.z f))
      with (0 + q * Rabs (Vector3.z (currentPos d) - Vector3.z f)) by ring.
    apply Rmax_gap_bound; try assumption; try lra. apply Rabs_pos.
Qed.

End ScatterSettles.

Lemma explodeFrame_60Hz state w2l : explodeFrame 0.04 (frame state (1 / 60) w2l).
Proof.
  intros r. pose proof (draw_range r). unfold lerpFactor. lra.
Qed.

Lemma exploded_scatter_settles_near_target_witness :
  exists d' : Particle,
    nth_error
      (data (run halves identityQuaternion
                 [frame (sample_state 0) (1 / 60) (fun v => v)]
                 (sample_scene true false scatter))) 0 = Some d' /\
    fixedTarget d' = Vector3.mk 0 8 0.
Proof.
  destruct (exploded_scatter_settles_near_target halves identityQuaternion 0.04
              ltac:(lra)
              [frame (sample_state 0) (1 / 60) (fun v => v)]
              (sample_scene true false scatter) 0 (sample_particle scatter) sample_mesh
              (Forall_cons _ (explodeFrame_60Hz _ _) (Forall_nil _))
              eq_refl eq_refl eq_refl eq_refl)
    as (d' & H1 & H2 & _).
  exists d'. split; assumption.
Defined.

(** ** The fixed target of a scatter particle *)

Lemma length_one_squares e :
  Vector3.length e = 1 ->
  Vector3.x e * Vector3.x e + Vector3.y e * Vector3.y e + Vector3.z e * Vector3.z e = 1.
Proof.
  unfold Vector3.length. intros H.
  rewrite <- (sqrt_sqrt _ (sum_squares_nonneg (Vector3.x e) (Vector3.y e) (Vector3.z e))).
  rewrite H. ring.
Qed.

Section ScatterTarget.

Variable random : RandomSource.
Variable aq : Vector3.t -> Quaternion -> Vector3.t.
Variable THREE_Color : string -> Color.t.

(** The fixed target of a scatter particle is made at creation from the
    four draws that follow the draw of its type: the vector
    [(a - 0.5, b - 0.5, c - 0.5)] normalised, times the distance
    [6 + 16 e], which is in [6, 22), plus [(0, 2, 0)].  Unless the three
    draws are all 0.5 the normalised vector has length 1 and the target is
    at that distance from [(0, 2, 0)]; if they are, the target is
    [(0, 2, 0)].  In an exploded frame the particle moves toward the target
    plus the oscillation, the target stays as it is, and nothing of the
    camera or of the transform of the mesh enters: two frames at the same
    time give the same particle. *)
Theorem scatter_target_made_from_four_draws :
  (forall n : nat,
      let d := fst (createParticle random THREE_Color n) in
      let v := Vector3.mk (random (n + 5)%nat - 0.5) (random (n + 6)%nat - 0.5)
                          (random (n + 7)%nat - 0.5) in
      let dist := 6 + random (n + 8)%nat * 16 in
      type d = scatter ->
      fixedTarget d =
        Vector3.add (Vector3.multiplyScalar (Vector3.normalize v) dist)
                    (Vector3.mk 0 2 0) /\
      6 <= dist < 22 /\
      (v <> Vector3.zero ->
       Vector3.length (Vector3.normalize v) = 1 /\
       Vector3.distanceTo (fixedTarget d) (Vector3.mk 0 2 0) = dist) /\
      (v = Vector3.zero -> fixedTarget d = Vector3.mk 0 2 0)) /\
  (forall state delta w2l particles w mesh j d,
      meshRef_current w = Some mesh ->
      nth_error particles j = Some d ->
      type d = scatter ->
      exists d',
        nth_error
          (fst (HeartParticles_useFrame random aq true state delta w2l particles w)) j =
        Some d' /\
        fixedTarget d' = fixedTarget d /\
        let target := fixedTarget d in
        let t := clock_elapsedTime state in
        let factor := lerpFactor delta 3 (random (draws w + j)%nat) in
        let old := currentPos d in
        Vector3.x (currentPos d') =
          Vector3.x old +
          (Vector3.x target + cos (t * 0.5 + INR j * 0.1) * 0.1 - Vector3.x old) * factor /\
        Vector3.y (currentPos d') =
          Vector3.y old +
          (Vector3.y target + sin (t + INR j * 0.1) * 0.2 - Vector3.y old) * factor /\
        Vector3.z (currentPos d') =
          Vector3.z old + (Vector3.z target - Vector3.z old) * factor) /\
  (forall state state' delta w2l w2l' particles w j d,
      nth_error particles j = Some d ->
      type d = scatter ->
      clock_elapsedTime state' = clock_elapsedTime state ->
      nth_error
        (fst (HeartParticles_useFrame random aq true state delta w2l particles w)) j =
      nth_error
        (fst (HeartParticles_useFrame random aq true state' delta w2l' particles w)) j).
Proof.
  split; [|split].
  - intros n d v dist Ht.
    destruct (createParticle_target random THREE_Color n) as (Hty & _ & Hf & _).
    fold d in Hty, Hf.
    rewrite createTarget_type in Hty.
    assert (Hu : 0.537 <= random (n + 4)%nat).
    { destruct (ltb (random (n + 4)%nat) 0.116) eqn:E1; [congruence|].
      destruct (ltb (random (n + 4)%nat) 0.537) eqn:E2; [congruence|].
      apply ltb_false_iff in E2. exact E2. }
    rewrite (createTarget_scatter random _ _ Hu) in Hf.
    replace (S (S (S (n + 5)))) with (n + 8)%nat in Hf by lia.
    replace (S (S (n + 5))) with (n + 7)%nat in Hf by lia.
    replace (S (n + 5)) with (n + 6)%nat in Hf by lia.
    fold v in Hf. fold dist in Hf.
    pose proof (draw_range (random (n + 8)%nat)) as He.
    assert (Hdist : 6 <= dist < 22) by (unfold dist; lra).
    split; [exact Hf|]. split; [exact Hdist|]. split.
    + intros Hv. pose proof (normalize_unit v Hv) as Hlen.
      split; [exact Hlen|].
      apply length_one_squares in Hlen.
      rewrite Hf. unfold Vector3.distanceTo, Vector3.add, Vector3.multiplyScalar.
      cbn [Vector3.x Vector3.y Vector3.z]. cbv zeta.
      set (e := Vector3.normalize v) in *.
      replace ((Vector3.x e * dist + 0 - 0) * (Vector3.x e * dist + 0 - 0) +
               (Vector3.y e * dist + 2 - 2) * (Vector3.y e * dist + 2 - 2) +
               (Vector3.z e * dist + 0 - 0) * (Vector3.z e * dist + 0 - 0))
        with (dist * dist *
              (Vector3.x e * Vector3.x e + Vector3.y e * Vector3.y e +
               Vector3.z e * Vector3.z e)) by ring.
      rewrite Hlen, Rmult_1_r. apply sqrt_square. lra.
    + intros Hz. rewrite Hf, Hz, normalize_zero.
      apply Vector3_eq; simpl; lra.
  - intros state delta w2l particles w mesh j d Hm Hd Ht.
    exists (movedParticle random aq true state delta w2l w d j).
    split; [eapply useFrame_nth; eassumption|].
    split; [reflexivity|].
    cbv zeta. unfold movedParticle. cbn [currentPos set_currentPos].
    rewrite desiredPosition_scatter by assumption.
    unfold oscillation, Vector3.lerp. cbn [Vector3.x Vector3.y Vector3.z].
    repeat split; reflexivity.
  - intros state state' delta w2l w2l' particles w j d Hd Ht Htime.
    destruct (meshRef_current w) as [mesh|] eqn:Hm.
    + rewrite !(useFrame_nth random aq true _ delta _ particles w mesh j d Hm Hd).
      unfold movedParticle.
      rewrite !desiredPosition_scatter by assumption.
      rewrite Htime. reflexivity.
    + rewrite !useFrame_unmounted by assumption. reflexivity.
Qed.

End ScatterTarget.

Lemma createParticle_halves_but_4_and_5 :
  type (fst (createParticle halves_but_4_and_5 white 0%nat)) = scatter.
Proof.
  destruct (createParticle_target halves_but_4_and_5 white 0%nat) as (Ht & _).
  rewrite createTarget_type in Ht. rewrite Ht.
  destruct (ltb (halves_but_4_and_5 (0 + 4)%nat) 0.116) eqn:E1;
    [apply ltb_true_iff in E1; simpl in E1; lra|].
  destruct (ltb (halves_but_4_and_5 (0 + 4)%nat) 0.537) eqn:E2;
    [apply ltb_true_iff in E2; simpl in E2; lra|].
  reflexivity.
Qed.

Lemma scatter_target_made_from_four_draws_witness :
  let d := fst (createParticle halves_but_4_and_5 white 0%nat) in
  let v := Vector3.mk (halves_but_4_and_5 5%nat - 0.5) (halves_but_4_and_5 6%nat - 0.5)
                      (halves_but_4_and_5 7%nat - 0.5) in
  Vector3.length (Vector3.normalize v) = 1 /\
  Vector3.distanceTo (fixedTarget d) (Vector3.mk 0 2 0) = 6 + halves_but_4_and_5 8%nat * 16.
Proof.
  apply (proj1 (scatter_target_made_from_four_draws halves_but_4_and_5
                  identityQuaternion white) 0%nat createParticle_halves_but_4_and_5).
  intros H. apply (f_equal Vector3.x) in H. simpl in H. lra.
Defined.
